(** * check-services.py: Tor hidden service checker

    A shallow embedding of [check-services.py] and the properties its
    specification states about it.

    Python [str] values are modelled as lists of characters ([list ascii]);
    non-ASCII literals (the status glyphs) appear as their UTF-8 bytes, the
    encoding with which every file of the program is read and written. A
    search for a whole string in UTF-8 text finds the occurrences the search
    over code points finds, since no character's encoding starts inside the
    encoding of another. Python integers are [Z] where the code computes
    with them as indices ([str.find] returns [-1] when nothing is found) and
    [nat] where they are lengths.

    The effects of the program (files, standard output, GET requests, the
    clock) are the fields of a [world] that every function passes on;
    exceptions are the [Raise] results of a small state and error monad.
    Files are opened in text mode: reading translates the line endings
    ["\r\n"] and ["\r"] to ["\n"] and can fail, and so can writing, which
    empties the file first. The line separator of the system is the line
    feed, as on every POSIX system, so that the text written reaches the
    file as it is. *)

From Stdlib Require Import Ascii DecimalString.
From Stdlib Require String.
From stdpp Require Import gmap strings list.

Abbreviation str := (list ascii).

(** A Python string literal. *)
Definition lit (s : string) : str := String.list_ascii_of_string s.
Arguments lit : simpl never.

(** The escape ["\n"]. *)
Definition LF : ascii := "010"%char.

(** The escape ["\r"]. *)
Definition CR : ascii := "013"%char.

(** ** The string operations of the Python runtime the program uses *)
Module Str.

(** [s.startswith(p)] *)
Fixpoint startswith (p s : str) : bool :=
  match p, s with
  | [], _ => true
  | _ :: _, [] => false
  | a :: p', b :: s' => bool_decide (a = b) && startswith p' s'
  end.

(** [s.find(sub)] scanning [s] whose first character has index [i]:
    the lowest index at which [sub] occurs, [-1] if there is none. *)
Fixpoint find_from (sub s : str) (i : Z) : Z :=
  match s with
  | [] => if startswith sub [] then i else (-1)%Z
  | _ :: s' => if startswith sub s then i else find_from sub s' (i + 1)
  end.

(** [s.find(sub, start)]: a negative [start] counts from the end of [s],
    and beyond the end of [s] nothing is found. *)
Definition find (sub s : str) (start : Z) : Z :=
  let len := Z.of_nat (length s) in
  let start := if bool_decide (start < 0)%Z then Z.max (len + start) 0 else start in
  if bool_decide (len < start)%Z then (-1)%Z
  else find_from sub (drop (Z.to_nat start) s) start.

(** [sub in s] *)
Fixpoint contains (sub s : str) : bool :=
  match s with
  | [] => startswith sub []
  | _ :: s' => startswith sub s || contains sub s'
  end.

(** The slices [s[:i]] and [s[i:]] for an index [0 <= i]. *)
Definition slice_to (s : str) (i : Z) : str := take (Z.to_nat i) s.
Definition slice_from (s : str) (i : Z) : str := drop (Z.to_nat i) s.

(** The program uses none of the two functions below; the properties are
    stated and proved with them. *)

(** Number of positions of [s] at which [sub] occurs (occurrences may
    overlap). *)
Fixpoint count (sub s : str) : nat :=
  match s with
  | [] => if startswith sub [] then 1 else 0
  | _ :: s' => (if startswith sub s then 1 else 0) + count sub s'
  end.

(** The first position at which [sub] occurs in [s]: the index [find]
    computes, as a natural number. *)
Fixpoint first_occ (sub s : str) : option nat :=
  match s with
  | [] => if startswith sub [] then Some 0 else None
  | _ :: s' => if startswith sub s then Some 0 else S <$> first_occ sub s'
  end.

End Str.

(** ** Exceptions and the world the program runs in *)

(** The exception classes the program can meet: the failures of
    [requests.Session.get], the failures of [open], [read] and [write] on a
    file, [csv.Error], and [KeyboardInterrupt], which derives from
    [BaseException] only. *)
Inductive exception :=
  | ConnectTimeout | ReadTimeout | ConnectionError | ProxyError | SSLError
  | MissingSchema | InvalidSchema | InvalidURL
  | FileNotFoundError | IsADirectoryError | PermissionError | OSError
  | UnicodeDecodeError | CsvError
  | KeyboardInterrupt.

(** [type(e).__name__] *)
Definition type_name (e : exception) : str :=
  match e with
  | ConnectTimeout => lit "ConnectTimeout"
  | ReadTimeout => lit "ReadTimeout"
  | ConnectionError => lit "ConnectionError"
  | ProxyError => lit "ProxyError"
  | SSLError => lit "SSLError"
  | MissingSchema => lit "MissingSchema"
  | InvalidSchema => lit "InvalidSchema"
  | InvalidURL => lit "InvalidURL"
  | FileNotFoundError => lit "FileNotFoundError"
  | IsADirectoryError => lit "IsADirectoryError"
  | PermissionError => lit "PermissionError"
  | OSError => lit "OSError"
  | UnicodeDecodeError => lit "UnicodeDecodeError"
  | CsvError => lit "Error"
  | KeyboardInterrupt => lit "KeyboardInterrupt"
  end.

(** [isinstance(e, Exception)], the test of [except Exception]. *)
Definition is_Exception (e : exception) : bool :=
  match e with KeyboardInterrupt => false | _ => true end.

(** [isinstance(e, FileNotFoundError)], the test of
    [except FileNotFoundError]. *)
Definition is_FileNotFoundError (e : exception) : bool :=
  match e with FileNotFoundError => true | _ => false end.

(** The failures of the transport: timeout, connection refused, proxy error
    and TLS failure. *)
Definition transport_failure (e : exception) : bool :=
  match e with
  | ConnectTimeout | ReadTimeout | ConnectionError | ProxyError | SSLError => true
  | _ => false
  end.

Inductive result (A : Type) :=
  | Ok (a : A)
  | Raise (e : exception).
Arguments Ok {A} a.
Arguments Raise {A} e.

Record response := Response { status_code : Z }.

(** [datetime.datetime] *)
Record datetime := Datetime {
  year : nat; month : nat; day : nat;
  hour : nat; minute : nat; second : nat
}.

(** A row of [csv.DictReader] as the program declares it, [Dict[str, str]]:
    a column the header of the file does not name is a key the dictionary
    lacks. The [None] that [csv.DictReader] stores for the fields a row
    shorter than the header lacks is not a [str]: such rows are outside
    this type, and nothing below is stated about them. *)
Abbreviation dict := (gmap str str).

(** What stands at a path: a directory, or a regular file with its
    content, [None] when its bytes are not UTF-8, and whether it may be
    read and written. *)
Inductive node :=
  | Directory
  | File (content : option str) (readable writable : bool).

(** A regular file that holds text and may be read and written. *)
Definition text_file (content : str) : node := File (Some content) true true.

(** The steps at which the operating system can refuse to write a file
    the program opens with mode ['w']: creating it where nothing stands,
    and writing the text once the file is open and empty. A refusal is the
    exception raised and, when the text is being written, the number of its
    characters that reached the file before. *)
Inductive os_step := CreateFile | WriteText.

Record refusal := Refusal { raised : exception; written : nat }.

(** What the program reads and changes: what stands at each path, the
    lines printed, the GET requests issued ([url], [timeout]) and the number
    of times the clock was read. *)
Record world := World {
  files : gmap str node;
  stdout : list str;
  requests : list (str * Z);
  clock_reads : nat
}.

(** A computation that changes the world and returns or raises. *)
Definition M (A : Type) : Type := world -> result A * world.

Definition ret {A} (a : A) : M A := fun w => (Ok a, w).

Definition bind {A B} (m : M A) (k : A -> M B) : M B :=
  fun w =>
    match m w with
    | (Ok a, w') => k a w'
    | (Raise e, w') => (Raise e, w')
    end.

Definition raise {A} (e : exception) : M A := fun w => (Raise e, w).

(** [try: body / except <catches> as e: handler e] *)
Definition try_except {A} (body : M A) (catches : exception -> bool)
    (handler : exception -> M A) : M A :=
  fun w =>
    match body w with
    | (Ok a, w') => (Ok a, w')
    | (Raise e, w') => if catches e then handler e w' else (Raise e, w')
    end.

Declare Scope prog_scope.
Delimit Scope prog_scope with prog.
Notation "'let!' x := m 'in' k" := (bind m (fun x => k))
  (at level 10, x pattern, m at level 200, k at level 200) : prog_scope.
Notation "'do!' m ; k" := (bind m (fun _ => k))
  (at level 10, m at level 99, k at level 200) : prog_scope.
Open Scope prog_scope.

(** [print(line)] *)
Definition print (line : str) : M unit :=
  fun w => (Ok tt, World (files w) (stdout w ++ [line]) (requests w) (clock_reads w)).

(** The text mode of [open] with the default [newline=None]: on input
    the line endings ["\r\n"] and ["\r"] become ["\n"]. *)
Fixpoint universal_newlines (s : str) : str :=
  match s with
  | [] => []
  | c :: s' =>
      if bool_decide (c = CR) then
        match s' with
        | c' :: s'' =>
            if bool_decide (c' = LF) then LF :: universal_newlines s''
            else LF :: universal_newlines s'
        | [] => [LF]
        end
      else c :: universal_newlines s'
  end.

(** [open(filename, 'r', encoding='utf-8').read()] *)
Definition read_file (filename : str) : M str :=
  fun w =>
    match files w !! filename with
    | None => (Raise FileNotFoundError, w)
    | Some Directory => (Raise IsADirectoryError, w)
    | Some (File content readable writable) =>
        if negb readable then (Raise PermissionError, w)
        else
          match content with
          | None => (Raise UnicodeDecodeError, w)
          | Some text => (Ok (universal_newlines text), w)
          end
    end.

(** [open(filename, 'w', encoding='utf-8')]: the file is created when
    nothing stands at the path, and emptied when it is a file. *)
Definition open_for_writing (os_error : os_step -> str -> option refusal)
    (filename : str) : M unit :=
  fun w =>
    let opened readable :=
      (Ok tt, World (<[filename := File (Some []) readable true]> (files w)) (stdout w)
                    (requests w) (clock_reads w)) in
    match files w !! filename with
    | None =>
        match os_error CreateFile filename with
        | Some r => (Raise (raised r), w)
        | None => opened true
        end
    | Some Directory => (Raise IsADirectoryError, w)
    | Some (File content readable writable) =>
        if negb writable then (Raise PermissionError, w) else opened readable
    end.

(** [f.write(content)] on the file just opened, and its closing. The line
    feeds are written as they are (the line separator of a POSIX
    system). When the step fails the file keeps the characters that
    reached it. *)
Definition write_text (os_error : os_step -> str -> option refusal)
    (filename content : str) : M unit :=
  fun w =>
    match files w !! filename with
    | Some (File _ readable writable) =>
        let holding text :=
          World (<[filename := File (Some text) readable writable]> (files w))
                (stdout w) (requests w) (clock_reads w) in
        match os_error WriteText filename with
        | Some r => (Raise (raised r), holding (take (written r) content))
        | None => (Ok tt, holding content)
        end
    | _ => (Ok tt, w)
    end.

(** [with open(filename, 'w', encoding='utf-8') as f: f.write(content)] *)
Definition write_file (os_error : os_step -> str -> option refusal)
    (filename content : str) : M unit :=
  do! open_for_writing os_error filename;
  write_text os_error filename content.

(** ** The program *)

(** [d.get(key, default)] *)
Definition get (d : dict) (key dflt : str) : str := default dflt (d !! key).

(** [str(n)] for a length [n], as an f-string prints it. *)
Definition decimal (n : nat) : str := lit (NilEmpty.string_of_uint (Nat.to_uint n)).

(** [n] in decimal, zero-padded to [width] digits. *)
Definition zero_pad (width n : nat) : str :=
  replicate (width - length (decimal n)) "0"%char ++ decimal n.

(** [d.strftime('%Y-%m-%d %H:%M:%S UTC')] *)
Definition strftime (d : datetime) : str :=
  zero_pad 4 (year d) ++ lit "-" ++ zero_pad 2 (month d) ++ lit "-" ++ zero_pad 2 (day d)
  ++ lit " " ++ zero_pad 2 (hour d) ++ lit ":" ++ zero_pad 2 (minute d) ++ lit ":"
  ++ zero_pad 2 (second d) ++ lit " UTC".

(** The scheme test and rewriting at the head of [check_onion_service]. *)
Definition ensure_scheme (url : str) : str :=
  if negb (Str.startswith (lit "http") url) then lit "http://" ++ url else url.

(** *** The status section ([update_readme], lines 54-89) *)

(** The body of the loop over [online_services]. *)
Definition online_entry (status_content : str) (service : dict) : str :=
  let name := get service (lit "name") (lit "Unknown") in
  let url := get service (lit "url") [] in
  let desc := get service (lit "description") [] in
  let status_content := status_content ++ (lit "- **" ++ name ++ lit "**" ++ [LF]) in
  let status_content := status_content ++ (lit "  - URL: `" ++ url ++ lit "`" ++ [LF]) in
  let status_content :=
    if bool_decide (desc <> []) then status_content ++ (lit "  - " ++ desc ++ [LF])
    else status_content in
  status_content ++ [LF].

(** The body of the loop over [offline_services]. *)
Definition offline_entry (status_content : str) (service : dict) : str :=
  let name := get service (lit "name") (lit "Unknown") in
  let url := get service (lit "url") [] in
  status_content ++ (lit "- **" ++ name ++ lit "** - `" ++ url ++ lit "`" ++ [LF]).

Definition status_content (timestamp : str) (online_services offline_services : list dict)
    : str :=
  let status_content :=
    lit "## 🧅 Tor Hidden Services Status" ++ [LF; LF]
    ++ lit "*Last checked: " ++ timestamp ++ lit "*" ++ [LF; LF]
    ++ lit "### ✅ Online Services (" ++ decimal (length online_services) ++ lit ")"
    ++ [LF; LF] in
  let status_content :=
    if bool_decide (online_services <> []) then
      foldl online_entry status_content online_services
    else status_content ++ (lit "*No services are currently online.*" ++ [LF; LF]) in
  let status_content :=
    status_content ++ (lit "### ❌ Offline Services (" ++ decimal (length offline_services)
                       ++ lit ")" ++ [LF; LF]) in
  let status_content :=
    if bool_decide (offline_services <> []) then
      foldl offline_entry status_content offline_services
    else status_content ++ (lit "*All services are online!*" ++ [LF]) in
  status_content ++ ([LF] ++ lit "---" ++ [LF]).

(** *** Replacing or appending the section ([update_readme], lines 98-114) *)

Definition start_marker : str := lit "## 🧅 Tor Hidden Services Status".
Definition end_marker : str := [LF] ++ lit "---" ++ [LF].

Definition splice (status_content readme : str) : str :=
  if Str.contains start_marker readme then
    let start_idx := Str.find start_marker readme 0 in
    let end_idx := Str.find end_marker readme start_idx in
    if bool_decide (end_idx <> (-1)%Z) then
      let end_idx := (end_idx + Z.of_nat (length end_marker))%Z in
      Str.slice_to readme start_idx ++ status_content ++ Str.slice_from readme end_idx
    else Str.slice_to readme start_idx ++ status_content
  else readme ++ ([LF] ++ status_content).

(** The document [update_readme] starts from when the file does not exist. *)
Definition fresh_readme : str := lit "# Tor Hidden Services Monitor" ++ [LF; LF].

Section Program.

(** The collaborators of the program, outside its source: the answer of the
    network to the [n]-th GET request, the clock at its [n]-th reading, the
    rows [csv.DictReader] parses from the text of a file, or the exception
    it raises on a text it cannot parse, and the refusal of the operating
    system at a step of writing a file, when it refuses. *)
Variable network : nat -> str -> Z -> result response.
Variable clock : nat -> datetime.
Variable DictReader : str -> result (list dict).
Variable os_error : os_step -> str -> option refusal.

(** [session.get(url, timeout=timeout)], through the Tor SOCKS proxy. *)
Definition session_get (url : str) (timeout : Z) : M response :=
  fun w =>
    (network (length (requests w)) url timeout,
     World (files w) (stdout w) (requests w ++ [(url, timeout)]) (clock_reads w)).

(** [datetime.utcnow()] *)
Definition utcnow : M datetime :=
  fun w =>
    (Ok (clock (clock_reads w)),
     World (files w) (stdout w) (requests w) (S (clock_reads w))).

(** The handler of [except Exception] prints the rewritten [url]: the
    assignment precedes the request, and neither [startswith] nor the
    f-string raises on a [str]. *)
Definition check_onion_service (url : str) (timeout : Z) : M bool :=
  let url := ensure_scheme url in
  try_except
    (let! response := session_get url timeout in
     ret (bool_decide (status_code response < 500)%Z))
    is_Exception
    (fun e =>
       do! print (lit "  ❌ " ++ url ++ lit ": " ++ type_name e);
       ret false).

Definition read_services_csv (filename : str) : M (list dict) :=
  let! f := read_file filename in
  let! reader := (fun w => (DictReader f, w)) in
  ret (foldl (fun services row => services ++ [row]) [] reader).

Definition update_readme (online_services offline_services : list dict)
    (readme_file : str) : M unit :=
  let! now := utcnow in
  let timestamp := strftime now in
  let status_content := status_content timestamp online_services offline_services in
  let! readme :=
    try_except (read_file readme_file) is_FileNotFoundError (fun _ => ret fresh_readme) in
  let readme := splice status_content readme in
  write_file os_error readme_file readme.

(** The loop of [main] over the services still to check. *)
Fixpoint check_services (services online_services offline_services : list dict)
    : M (list dict * list dict) :=
  match services with
  | [] => ret (online_services, offline_services)
  | service :: services =>
      let name := get service (lit "name") (lit "Unknown") in
      let url := get service (lit "url") [] in
      do! print (lit "Checking " ++ name ++ lit "...");
      let! up := check_onion_service url 30 in
      if up then
        do! print (lit "  ✅ Online");
        check_services services (online_services ++ [service]) offline_services
      else
        do! print (lit "  ❌ Offline");
        check_services services online_services (offline_services ++ [service])
  end.

Definition main : M unit :=
  do! print (lit "🧅 Starting Tor hidden service check...");
  let! loaded :=
    try_except
      (let! services := read_services_csv (lit "services.csv") in
       do! print (lit "📋 Found " ++ decimal (length services) ++ lit " services to check"
                  ++ [LF]);
       ret (Some services))
      is_FileNotFoundError
      (fun _ =>
         do! print (lit "❌ services.csv not found!");
         ret None) in
  match loaded with
  | None => ret tt
  | Some services =>
      let! (online_services, offline_services) := check_services services [] [] in
      do! print ([LF] ++ lit "📝 Updating README...");
      do! update_readme online_services offline_services (lit "README.md");
      print (lit "✅ Done! " ++ decimal (length online_services) ++ lit " online, "
             ++ decimal (length offline_services) ++ lit " offline")
  end.

End Program.

(** ** Notions the properties are stated with *)

(** [select flags l]: the elements of [l] whose flag is set, in the order of
    [l]. *)
Fixpoint select {A} (flags : list bool) (l : list A) : list A :=
  match flags, l with
  | b :: flags, x :: l => if b then x :: select flags l else select flags l
  | _, _ => []
  end.

(** Whether an answer of the network counts as online. *)
Definition answer_online (answer : result response) : bool :=
  match answer with
  | Ok r => bool_decide (status_code r < 500)%Z
  | Raise _ => false
  end.

(** The outcomes of the probes of [services], one request each with the
    default timeout, when the first of them is the [n]-th request. *)
Fixpoint probe_outcomes (network : nat -> str -> Z -> result response) (n : nat)
    (services : list dict) : list bool :=
  match services with
  | [] => []
  | service :: services =>
      answer_online (network n (ensure_scheme (get service (lit "url") [])) 30%Z)
      :: probe_outcomes network (S n) services
  end.

(** The normalization of the URL in the words of the specification:
    [http://] is prepended to a URL that has no recognized scheme prefix.
    The schemes the session of the prober routes are [http] and [https]. *)
Definition spec_recognized_scheme (url : str) : bool :=
  Str.startswith (lit "http://") url || Str.startswith (lit "https://") url.

Definition spec_normalized_url (url : str) : str :=
  if spec_recognized_scheme url then url else lit "http://" ++ url.

(** The number of line feeds at the head of [s]. *)
Fixpoint leading_LF (s : str) : nat :=
  match s with
  | c :: s' => if bool_decide (c = LF) then S (leading_LF s') else 0
  | [] => 0
  end.

(** The number of blank lines that end [text], when a new line of a
    document starts after it: every line feed at the end of [text] closes a
    line, which is blank unless it is the line of the last other character
    of [text]. *)
Definition blank_lines_at_end (text : str) : nat :=
  let n := leading_LF (reverse text) in
  if bool_decide (n = length text) then n else n - 1.

(** The number of blank lines just before [section], which ends
    [document]. *)
Definition blank_lines_before (section document : str) : nat :=
  blank_lines_at_end (take (length document - length section) document).

(** The lines of one online service and of one offline service, and the
    text of the two lists: what the loops of [status_content] add. *)
Definition online_item (service : dict) : str := online_entry [] service.
Definition offline_item (service : dict) : str := offline_entry [] service.

Definition online_list (services : list dict) : str :=
  if bool_decide (services <> []) then services ≫= online_item
  else lit "*No services are currently online.*" ++ [LF; LF].

Definition offline_list (services : list dict) : str :=
  if bool_decide (services <> []) then services ≫= offline_item
  else lit "*All services are online!*" ++ [LF].

(** The strings [status_content] reads from the services: name, URL and
    description of an online service, name and URL of an offline one. *)
Definition rendered_fields (online_services offline_services : list dict) : list str :=
  (online_services ≫= fun service =>
     [get service (lit "name") (lit "Unknown"); get service (lit "url") [];
      get service (lit "description") []])
  ++ (offline_services ≫= fun service =>
     [get service (lit "name") (lit "Unknown"); get service (lit "url") []]).

(** The text [splice] keeps before and after the section it replaces. *)
Definition before_section (readme : str) : str :=
  if Str.contains start_marker readme then
    Str.slice_to readme (Str.find start_marker readme 0)
  else readme.

Definition after_section (readme : str) : str :=
  if Str.contains start_marker readme then
    let end_idx := Str.find end_marker readme (Str.find start_marker readme 0) in
    if bool_decide (end_idx <> (-1)%Z) then
      Str.slice_from readme (end_idx + Z.of_nat (length end_marker))
    else []
  else [].

(** ** Example inputs *)

(** A clock stopped at 2026-11-04 07:05:09. *)
Definition example_clock (n : nat) : datetime := Datetime 2026 11 4 7 5 9.

(** A world whose [README.md] holds one line that no line feed ends, and a
    world without [README.md]. *)
Definition notes_world : world :=
  World {[ lit "README.md" := text_file (lit "# Notes") ]} [] [] 0.
Definition empty_world : world := World ∅ [] [] 0.

(** A world whose [README.md] holds the heading of the status section
    twice, the first one closed by the end marker. *)
Definition two_headings_world : world :=
  World {[ lit "README.md" :=
             text_file (start_marker ++ end_marker ++ lit "Notes" ++ [LF]
                        ++ start_marker ++ [LF]) ]}
        [] [] 0.

(** A service whose name is the heading of the status section. *)
Definition heading_named_service : dict :=
  {[ lit "name" := start_marker; lit "url" := lit "heading.onion" ]}.

(** A service with name and URL. *)
Definition alpha_service : dict :=
  {[ lit "name" := lit "Alpha"; lit "url" := lit "alpha.onion" ]}.

(** A service whose description spans two lines, the second one made of
    three hyphens. *)
Definition ruled_service : dict :=
  {[ lit "name" := lit "Ruled"; lit "url" := lit "ruled.onion";
     lit "description" := lit "above" ++ [LF] ++ lit "---" ]}.

(** A clock that reads one second later each time. *)
Definition ticking_clock (n : nat) : datetime := Datetime 2026 11 4 7 5 n.

(** A service with name and URL only. *)
Definition beta_service : dict :=
  {[ lit "name" := lit "Beta"; lit "url" := lit "beta.onion" ]}.

(** A network on which [alpha.onion] answers 200 and every other request
    times out. *)
Definition example_network (n : nat) (url : str) (timeout : Z) : result response :=
  if bool_decide (url = lit "http://alpha.onion") then Ok (Response 200)
  else Raise ReadTimeout.

(** A reader that finds no row. *)
Definition no_rows (content : str) : result (list dict) := Ok [].

(** A document with a status section closed by the end marker, and a
    document whose status section is not closed. *)
Definition closed_readme : str :=
  lit "# Notes" ++ [LF] ++ start_marker ++ [LF] ++ lit "old" ++ end_marker
  ++ lit "Footer" ++ [LF].
Definition open_readme : str :=
  lit "# Notes" ++ [LF] ++ start_marker ++ [LF] ++ lit "old".

Definition closed_world : world :=
  World {[ lit "README.md" := text_file closed_readme ]} [] [] 0.
Definition open_world : world :=
  World {[ lit "README.md" := text_file open_readme ]} [] [] 0.

(** A world whose [services.csv] holds the header line only. *)
Definition csv_world : world :=
  World {[ lit "services.csv" := text_file (lit "name,url") ]} [] [] 0.

(** A world in which a directory stands at [README.md], and one in which
    the bytes of [README.md] are not UTF-8. *)
Definition directory_world : world := World {[ lit "README.md" := Directory ]} [] [] 0.
Definition undecodable_world : world :=
  World {[ lit "README.md" := File None true true ]} [] [] 0.

(** An operating system that refuses nothing. *)
Definition no_os_error (step : os_step) (filename : str) : option refusal := None.


(** Documents whose lines end with a carriage return and a line feed: one
    line of notes; a status section closed by the end marker, between a
    line of notes and a footer; and the same with every line of the
    section ended that way too. *)
Definition crlf_notes : str := lit "# Notes" ++ [CR; LF].
Definition crlf_around_section : str :=
  lit "# Notes" ++ [CR; LF] ++ start_marker ++ [LF] ++ lit "old" ++ end_marker
  ++ lit "Footer" ++ [CR; LF].
Definition crlf_readme : str :=
  lit "# Notes" ++ [CR; LF] ++ start_marker ++ [CR; LF] ++ lit "old" ++ [CR; LF]
  ++ lit "---" ++ [CR; LF] ++ lit "Footer" ++ [CR; LF].

Definition crlf_notes_world : world :=
  World {[ lit "README.md" := text_file crlf_notes ]} [] [] 0.
Definition crlf_around_section_world : world :=
  World {[ lit "README.md" := text_file crlf_around_section ]} [] [] 0.
Definition crlf_world : world :=
  World {[ lit "README.md" := text_file crlf_readme ]} [] [] 0.

(** A service whose description holds a carriage return followed by three
    hyphens. *)
Definition cr_ruled_service : dict :=
  {[ lit "name" := lit "Ruled"; lit "url" := lit "ruled.onion";
     lit "description" := lit "above" ++ [CR] ++ lit "---" ]}.

(** * Properties *)

(** ** Facts about the string primitives *)
Module StrFacts.
Import Str.

Lemma startswith_prefix (p s : str) : startswith p s = true <-> p `prefix_of` s.
Proof.
  revert s. induction p as [|a p IH]; intros [|b s]; simpl.
  - split; [intros _; apply prefix_nil | done].
  - split; [intros _; apply prefix_nil | done].
  - split; [done | intros H; by apply prefix_nil_not in H].
  - rewrite andb_true_iff, bool_decide_eq_true, IH. split.
    + intros [-> H]. by apply prefix_cons.
    + intros H. split; [by eapply prefix_cons_inv_1 | by eapply prefix_cons_inv_2].
Qed.

Lemma startswith_app (p r : str) : startswith p (p ++ r) = true.
Proof. apply startswith_prefix. by apply prefix_app_r. Qed.

Lemma startswith_nil_r (p : str) : startswith p [] = bool_decide (p = []).
Proof. by destruct p. Qed.

(** Only the first [length p] characters of a string decide the test. *)
Lemma startswith_take (p s : str) : startswith p s = startswith p (take (length p) s).
Proof.
  revert s. induction p as [|a p IH]; intros [|b s]; simpl; try done.
  by rewrite <- IH.
Qed.

Lemma startswith_app_long (p a x : str) :
  length p <= length a -> startswith p (a ++ x) = startswith p a.
Proof.
  intros H. rewrite (startswith_take p (a ++ x)), (startswith_take p a).
  by rewrite take_app_le.
Qed.

(** A character that [p] does not contain stops every match of [p]. *)
Lemma startswith_barrier (p a b : str) (c : ascii) :
  c ∉ p -> startswith p (a ++ c :: b) = startswith p a.
Proof.
  revert a. induction p as [|h p IH]; intros a Hc; [by destruct a|].
  apply not_elem_of_cons in Hc as [Hne Hc].
  destruct a as [|x a]; simpl.
  - by rewrite bool_decide_eq_false_2.
  - by rewrite IH.
Qed.

Lemma startswith_head_ne (h x : ascii) (p s : str) :
  h <> x -> startswith (h :: p) (x :: s) = false.
Proof. intros H. simpl. by rewrite bool_decide_eq_false_2. Qed.


Lemma find_from_first_occ (sub s : str) (i : Z) :
  find_from sub s i =
    match first_occ sub s with Some n => (i + Z.of_nat n)%Z | None => (-1)%Z end.
Proof.
  revert i. induction s as [|c s IH]; intros i; simpl.
  - destruct (startswith sub []); [f_equal; lia | done].
  - destruct (startswith sub (c :: s)); [lia|].
    rewrite IH. destruct (first_occ sub s); simpl; lia.
Qed.

Lemma find_nat (sub s : str) (n : nat) :
  n <= length s ->
  find sub s (Z.of_nat n) =
    match first_occ sub (drop n s) with
    | Some k => Z.of_nat (n + k)
    | None => (-1)%Z
    end.
Proof.
  intros H. unfold find. cbv zeta.
  rewrite (bool_decide_eq_false_2 (_ < 0)%Z) by lia.
  rewrite bool_decide_eq_false_2 by lia.
  rewrite Nat2Z.id, find_from_first_occ.
  destruct (first_occ sub (drop n s)); lia.
Qed.

Lemma find_0 (sub s : str) :
  find sub s 0 =
    match first_occ sub s with Some k => Z.of_nat k | None => (-1)%Z end.
Proof. change 0%Z with (Z.of_nat 0). rewrite find_nat by lia. by rewrite drop_0. Qed.

Lemma contains_first_occ (sub s : str) :
  contains sub s = bool_decide (is_Some (first_occ sub s)).
Proof.
  induction s as [|c s IH]; simpl.
  - by destruct (startswith sub []).
  - destruct (startswith sub (c :: s)); simpl; [done|].
    rewrite IH. apply bool_decide_ext. by rewrite fmap_is_Some.
Qed.

Lemma first_occ_Some (sub s : str) (n : nat) :
  first_occ sub s = Some n <->
    n <= length s /\ startswith sub (drop n s) = true /\
    forall k, k < n -> startswith sub (drop k s) = false.
Proof.
  revert n. induction s as [|c s IH]; intros n; simpl.
  - destruct (startswith sub []) eqn:E; split.
    + intros [= <-]. split_and!; [done | done | intros k Hk; lia].
    + intros (Hn & _ & _). f_equal. simpl in Hn. lia.
    + done.
    + intros (Hn & Hs & _). rewrite drop_nil in Hs. congruence.
  - destruct (startswith sub (c :: s)) eqn:E; split.
    + intros [= <-]. split_and!; [lia | done | intros k Hk; lia].
    + intros (_ & _ & Hk). destruct n as [|n]; [done|].
      specialize (Hk 0 ltac:(lia)). simpl in Hk. congruence.
    + intros Hf. apply fmap_Some in Hf as (m & Hm & ->).
      apply IH in Hm as (Hlen & Hs & Hk). split_and!; [lia | done |].
      intros [|k] Hlt; [done|]. apply Hk. lia.
    + intros (Hlen & Hs & Hk). destruct n as [|n]; [simpl in Hs; congruence|].
      apply fmap_Some. exists n. split; [|done].
      apply IH. split_and!; [lia | done |].
      intros k Hlt. apply (Hk (S k)). lia.
Qed.

Lemma first_occ_None (sub s : str) :
  first_occ sub s = None <->
    forall k, k <= length s -> startswith sub (drop k s) = false.
Proof.
  induction s as [|c s IH]; simpl.
  - destruct (startswith sub []) eqn:E; split.
    + done.
    + intros H. specialize (H 0 ltac:(lia)). simpl in H. congruence.
    + intros _ k Hk. by rewrite drop_nil.
    + done.
  - destruct (startswith sub (c :: s)) eqn:E; split.
    + done.
    + intros H. specialize (H 0 ltac:(lia)). simpl in H. congruence.
    + intros Hf. apply fmap_None in Hf. intros [|k] Hk; [done|].
      simpl. apply IH; [done | lia].
    + intros H. apply fmap_None, IH. intros k Hk. apply (H (S k)). lia.
Qed.

(** Where [sub] is found, the string splits around it. *)
Lemma first_occ_split (sub s : str) (n : nat) :
  first_occ sub s = Some n ->
  s = take n s ++ sub ++ drop (n + length sub) s.
Proof.
  intros (_ & Hs & _)%first_occ_Some.
  apply startswith_prefix in Hs as [r Hr].
  rewrite <- (take_drop n s) at 1. f_equal.
  rewrite Hr. f_equal. rewrite <- drop_drop, Hr.
  by rewrite drop_app_length.
Qed.

End StrFacts.

(** ** The translation of line endings *)
Section Newlines.
Import Str StrFacts.

Lemma universal_newlines_CR_LF (s : str) :
  universal_newlines (CR :: LF :: s) = LF :: universal_newlines s.
Proof. reflexivity. Qed.

Lemma universal_newlines_CR (c : ascii) (s : str) :
  c <> LF -> universal_newlines (CR :: c :: s) = LF :: universal_newlines (c :: s).
Proof. intros Hc. cbn [universal_newlines]. by rewrite bool_decide_eq_true_2, (bool_decide_eq_false_2 (c = LF)) by done. Qed.

Lemma universal_newlines_cons (c : ascii) (s : str) :
  c <> CR -> universal_newlines (c :: s) = c :: universal_newlines s.
Proof. intros Hc. cbn [universal_newlines]. by rewrite bool_decide_eq_false_2 by done. Qed.

(** Induction along the cases of [universal_newlines]. *)
Lemma newlines_ind (P : str -> Prop) :
  P [] -> P [CR] ->
  (forall s, P s -> P (CR :: LF :: s)) ->
  (forall c s, c <> LF -> P (c :: s) -> P (CR :: c :: s)) ->
  (forall c s, c <> CR -> P s -> P (c :: s)) ->
  forall s, P s.
Proof.
  intros Hnil HCR HCRLF Hother Hcons s.
  assert (P s /\ forall c, P (c :: s)) as [H _]; [|done].
  induction s as [|c' s [IH1 IH2]].
  - split; [done|]. intros c. destruct (decide (c = CR)) as [->|Hc]; [done|].
    by apply Hcons.
  - split; [apply IH2|]. intros c.
    destruct (decide (c = CR)) as [->|Hc].
    + destruct (decide (c' = LF)) as [->|Hc']; [by apply HCRLF|].
      apply Hother; [done|apply IH2].
    + apply Hcons; [done|apply IH2].
Qed.

(** The text read holds no carriage return. *)
Lemma universal_newlines_no_CR (s : str) : CR ∉ universal_newlines s.
Proof.
  induction s as [| |s IH|c s Hc IH|c s Hc IH] using newlines_ind.
  - apply not_elem_of_nil.
  - by apply (bool_decide_unpack _).
  - rewrite universal_newlines_CR_LF. apply not_elem_of_cons. by split.
  - rewrite universal_newlines_CR by done. apply not_elem_of_cons. by split.
  - rewrite universal_newlines_cons by done. apply not_elem_of_cons. by split.
Qed.

(** A text without carriage returns is read as it is stored. *)
Lemma universal_newlines_app_id (x y : str) :
  CR ∉ x -> universal_newlines (x ++ y) = x ++ universal_newlines y.
Proof.
  induction x as [|c x IH]; [done|]. intros [Hc Hx]%not_elem_of_cons.
  cbn [app]. rewrite universal_newlines_cons by done. by rewrite IH.
Qed.

Lemma universal_newlines_id (s : str) : CR ∉ s -> universal_newlines s = s.
Proof.
  intros Hs. rewrite <- (app_nil_r s) at 1.
  rewrite universal_newlines_app_id by done. by rewrite app_nil_r.
Qed.

Lemma last_cons_ne (c : ascii) (s : str) (d : ascii) :
  last (c :: s) <> Some d -> last s <> Some d.
Proof. destruct s; [done|]. by rewrite last_cons_cons. Qed.

(** The translation goes through a text that no carriage return ends. *)
Lemma universal_newlines_app (x y : str) :
  last x <> Some CR ->
  universal_newlines (x ++ y) = universal_newlines x ++ universal_newlines y.
Proof.
  induction x as [| |x IH|c x Hc IH|c x Hc IH] using newlines_ind; intros Hlast.
  - done.
  - done.
  - cbn [app]. rewrite !universal_newlines_CR_LF, IH; [done|].
    by do 2 apply last_cons_ne in Hlast.
  - change ((CR :: c :: x) ++ y) with (CR :: c :: (x ++ y)).
    rewrite !universal_newlines_CR by done.
    change (c :: x ++ y) with ((c :: x) ++ y). rewrite IH; [done|].
    by apply last_cons_ne in Hlast.
  - cbn [app]. rewrite !universal_newlines_cons by done. rewrite IH; [done|].
    by apply last_cons_ne in Hlast.
Qed.

(** What follows a line feed is translated on its own. *)
Lemma universal_newlines_app_LF (x y : str) :
  exists x', universal_newlines (x ++ LF :: y) = x' ++ LF :: universal_newlines y.
Proof.
  induction x as [| |x [x' IH]|c x Hc [x' IH]|c x Hc [x' IH]] using newlines_ind.
  - exists []. cbn [app]. by rewrite universal_newlines_cons.
  - exists []. done.
  - exists (LF :: x'). cbn [app]. by rewrite universal_newlines_CR_LF, IH.
  - exists (LF :: x'). change ((CR :: c :: x) ++ LF :: y) with (CR :: c :: (x ++ LF :: y)).
    rewrite universal_newlines_CR by done.
    change (c :: x ++ LF :: y) with ((c :: x) ++ LF :: y). by rewrite IH.
  - exists (c :: x'). cbn [app]. rewrite universal_newlines_cons by done. by rewrite IH.
Qed.

(** A string without line endings starts the text read where it starts the
    text stored. *)
Lemma startswith_universal_newlines (p s : str) :
  CR ∉ p -> LF ∉ p ->
  startswith p (universal_newlines s) = startswith p s.
Proof.
  intros HCR HLF. revert s. induction p as [|h p IH]; intros s; [by destruct s, (universal_newlines _)|].
  apply not_elem_of_cons in HCR as [HhCR HCR]. apply not_elem_of_cons in HLF as [HhLF HLF].
  destruct s as [|c s]; [done|].
  destruct (decide (c = CR)) as [->|Hc].
  - rewrite (startswith_head_ne h CR) by done.
    destruct s as [|c' s];
      [change (universal_newlines [CR]) with [LF]; by rewrite startswith_head_ne|].
    destruct (decide (c' = LF)) as [->|Hc'].
    + by rewrite universal_newlines_CR_LF, startswith_head_ne.
    + by rewrite universal_newlines_CR, startswith_head_ne.
  - rewrite universal_newlines_cons by done. cbn [startswith]. by rewrite IH.
Qed.

(** A string without line endings occurs in the text read where it occurs
    in the text stored. *)
Lemma count_universal_newlines (sub s : str) :
  sub <> [] -> CR ∉ sub -> LF ∉ sub ->
  count sub (universal_newlines s) = count sub s.
Proof.
  intros Hne HCR HLF. destruct sub as [|h p]; [done|].
  pose proof HCR as [HhCR _]%not_elem_of_cons.
  pose proof HLF as [HhLF _]%not_elem_of_cons.
  induction s as [| |s IH|c s Hc IH|c s Hc IH] using newlines_ind.
  - done.
  - change (universal_newlines [CR]) with [LF]. cbn [count].
    by rewrite !startswith_head_ne.
  - rewrite universal_newlines_CR_LF. cbn [count].
    by rewrite !startswith_head_ne, IH.
  - rewrite universal_newlines_CR by done.
    change (count (h :: p) (LF :: universal_newlines (c :: s)))
      with ((if startswith (h :: p) (LF :: universal_newlines (c :: s)) then 1 else 0)
            + count (h :: p) (universal_newlines (c :: s))).
    change (count (h :: p) (CR :: c :: s))
      with ((if startswith (h :: p) (CR :: c :: s) then 1 else 0)
            + count (h :: p) (c :: s)).
    by rewrite !startswith_head_ne, IH.
  - pose proof (startswith_universal_newlines (h :: p) (c :: s) HCR HLF) as Hs.
    rewrite universal_newlines_cons in Hs |- * by done. cbn [count].
    by rewrite Hs, IH.
Qed.

Lemma contains_universal_newlines (sub s : str) :
  sub <> [] -> CR ∉ sub -> LF ∉ sub ->
  contains sub (universal_newlines s) = contains sub s.
Proof.
  intros Hne HCR HLF. destruct sub as [|h p]; [done|].
  pose proof HCR as [HhCR _]%not_elem_of_cons.
  pose proof HLF as [HhLF _]%not_elem_of_cons.
  induction s as [| |s IH|c s Hc IH|c s Hc IH] using newlines_ind.
  - done.
  - change (universal_newlines [CR]) with [LF]. cbn [contains].
    by rewrite !startswith_head_ne.
  - rewrite universal_newlines_CR_LF. cbn [contains].
    by rewrite !startswith_head_ne, IH.
  - rewrite universal_newlines_CR by done.
    change (contains (h :: p) (LF :: universal_newlines (c :: s)))
      with (startswith (h :: p) (LF :: universal_newlines (c :: s))
            || contains (h :: p) (universal_newlines (c :: s))).
    change (contains (h :: p) (CR :: c :: s))
      with (startswith (h :: p) (CR :: c :: s) || contains (h :: p) (c :: s)).
    by rewrite !startswith_head_ne, IH.
  - pose proof (startswith_universal_newlines (h :: p) (c :: s) HCR HLF) as Hs.
    rewrite universal_newlines_cons in Hs |- * by done. cbn [contains].
    by rewrite Hs, IH.
Qed.

End Newlines.

(** ** The partition of a list by flags *)
Section SelectFacts.
Context {A : Type}.
Implicit Types (l : list A) (flags : list bool).

Lemma select_snoc flags l b x :
  length flags = length l ->
  select (flags ++ [b]) (l ++ [x]) = select flags l ++ (if b then [x] else []).
Proof.
  revert l. induction flags as [|f flags IH]; intros [|y l] Hlen; simplify_eq/=.
  - by destruct b.
  - rewrite IH by done. by destruct f.
Qed.

Lemma select_length flags l :
  length flags = length l ->
  length (select flags l) + length (select (negb <$> flags) l) = length l.
Proof.
  revert l. induction flags as [|f flags IH]; intros [|y l] Hlen; simplify_eq/=; [done|].
  specialize (IH l ltac:(done)). destruct f; simpl; lia.
Qed.

Lemma select_sublist flags l : select flags l `sublist_of` l.
Proof.
  revert l. induction flags as [|f flags IH]; intros [|y l]; simpl;
    try apply sublist_nil_l.
  destruct f; [by apply sublist_skip | by apply sublist_cons].
Qed.

Lemma select_Permutation flags l :
  length flags = length l ->
  select flags l ++ select (negb <$> flags) l ≡ₚ l.
Proof.
  revert l. induction flags as [|f flags IH]; intros [|y l] Hlen; simplify_eq/=; [done|].
  specialize (IH l ltac:(done)). destruct f; simpl.
  - by f_equiv.
  - rewrite <- Permutation_middle. by f_equiv.
Qed.

End SelectFacts.

(** ** What the effectful functions do *)
Section Runs.
Variable network : nat -> str -> Z -> result response.
Variable clock : nat -> datetime.
Variable DictReader : str -> result (list dict).
Variable os_error : os_step -> str -> option refusal.

Lemma foldl_snoc {A} (l acc : list A) :
  foldl (fun services row => services ++ [row]) acc l = acc ++ l.
Proof.
  revert acc. induction l as [|x l IH]; intros acc; simpl.
  - by rewrite app_nil_r.
  - by rewrite IH, <- app_assoc.
Qed.

Lemma read_file_missing filename w :
  files w !! filename = None -> read_file filename w = (Raise FileNotFoundError, w).
Proof. intros H. unfold read_file. by rewrite H. Qed.

Lemma read_file_text filename w stored :
  files w !! filename = Some (text_file stored) ->
  read_file filename w = (Ok (universal_newlines stored), w).
Proof. intros H. unfold read_file. by rewrite H. Qed.

Lemma read_services_csv_run filename w :
  read_services_csv DictReader filename w =
    match read_file filename w with
    | (Ok text, w') => (DictReader text, w')
    | (Raise e, w') => (Raise e, w')
    end.
Proof.
  unfold read_services_csv, bind, ret.
  destruct (read_file filename w) as [[text|e] w']; [|done].
  destruct (DictReader text) as [rows|e]; [|done].
  by rewrite foldl_snoc.
Qed.

(** What one call of the prober does to the world and returns. *)
Lemma check_onion_service_run url timeout w :
  check_onion_service network url timeout w =
    let url' := ensure_scheme url in
    let w' := World (files w) (stdout w) (requests w ++ [(url', timeout)]) (clock_reads w) in
    match network (length (requests w)) url' timeout with
    | Ok r => (Ok (bool_decide (status_code r < 500)%Z), w')
    | Raise e =>
        if is_Exception e then
          (Ok false,
           World (files w') (stdout w' ++ [lit "  ❌ " ++ url' ++ lit ": " ++ type_name e])
                 (requests w') (clock_reads w'))
        else (Raise e, w')
    end.
Proof.
  unfold check_onion_service, try_except, bind, session_get, ret, print. simpl.
  destruct (network _ _ _) as [r|e]; [done|].
  by destruct (is_Exception e).
Qed.

Lemma probe_outcomes_length n services :
  length (probe_outcomes network n services) = length services.
Proof. revert n. induction services; intros n; simpl; by f_equal. Qed.

(** When the network raises nothing but an [Exception], the prober returns
    and has issued one request. *)
Lemma check_onion_service_returns url timeout w :
  (forall n url timeout e, network n url timeout = Raise e -> is_Exception e = true) ->
  exists w',
    check_onion_service network url timeout w =
      (Ok (answer_online (network (length (requests w)) (ensure_scheme url) timeout)), w') /\
    length (requests w') = S (length (requests w)).
Proof.
  intros Hnet. rewrite check_onion_service_run. cbv zeta.
  destruct (network _ _ _) as [r|e] eqn:Hanswer.
  - eexists. split; [reflexivity|]. cbn [requests]. rewrite length_app. simpl. lia.
  - rewrite (Hnet _ _ _ _ Hanswer).
    eexists. split; [reflexivity|]. cbn [requests]. rewrite length_app. simpl. lia.
Qed.

Lemma check_services_run services :
  (forall n url timeout e, network n url timeout = Raise e -> is_Exception e = true) ->
  forall online offline w,
  exists w',
    let ups := probe_outcomes network (length (requests w)) services in
    check_services network services online offline w =
      (Ok (online ++ select ups services, offline ++ select (negb <$> ups) services), w').
Proof.
  intros Hnet. induction services as [|service services IH]; intros online offline w.
  - exists w. simpl. by rewrite !app_nil_r.
  - cbn [check_services probe_outcomes]. cbv zeta.
    unfold bind at 1. unfold print at 1. unfold bind at 1.
    match goal with
    | |- context [check_onion_service _ ?url ?timeout ?w0] =>
        destruct (check_onion_service_returns url timeout w0 Hnet) as (w1 & -> & Hreq)
    end.
    cbn [requests] in Hreq |- *.
    destruct (answer_online _); unfold bind at 1, print at 1;
      match goal with
      | |- context [check_services _ _ ?on ?off ?w2] =>
          destruct (IH on off w2) as [w' Hrun]
      end;
      cbv zeta in Hrun; cbn [requests] in Hrun; rewrite Hreq in Hrun; rewrite Hrun;
      exists w'; cbn [select fmap list_fmap negb]; by rewrite <- !app_assoc.
Qed.


(** What one call of the updater does: the clock is read, then the file;
    the file is opened for writing, which empties it, and the document is
    written. *)
Lemma update_readme_run online offline readme_file w :
  update_readme clock os_error online offline readme_file w =
    let section := status_content (strftime (clock (clock_reads w))) online offline in
    let w0 := World (files w) (stdout w) (requests w) (S (clock_reads w)) in
    let holding text readable :=
      World (<[readme_file := File (Some text) readable true]> (files w)) (stdout w)
            (requests w) (S (clock_reads w)) in
    let write readme readable :=
      match os_error WriteText readme_file with
      | Some r => (Raise (raised r), holding (take (written r) (splice section readme)) readable)
      | None => (Ok tt, holding (splice section readme) readable)
      end in
    match files w !! readme_file with
    | None =>
        match os_error CreateFile readme_file with
        | Some r => (Raise (raised r), w0)
        | None => write fresh_readme true
        end
    | Some Directory => (Raise IsADirectoryError, w0)
    | Some (File content readable writable) =>
        if negb readable then (Raise PermissionError, w0)
        else
          match content with
          | None => (Raise UnicodeDecodeError, w0)
          | Some text =>
              if negb writable then (Raise PermissionError, w0)
              else write (universal_newlines text) readable
          end
    end.
Proof.
  unfold update_readme, bind, utcnow, try_except, read_file, write_file, bind,
    open_for_writing, write_text, ret.
  cbn [files stdout requests clock_reads].
  destruct (files w !! readme_file) as [[|[text|] [|] [|]]|] eqn:Hfile;
    cbn [negb is_FileNotFoundError files stdout requests clock_reads];
    rewrite ?Hfile; cbn [negb]; try done.
  - cbn [files stdout requests clock_reads]. rewrite lookup_insert_eq.
    destruct (os_error WriteText readme_file); by rewrite insert_insert_eq.
  - destruct (os_error CreateFile readme_file); [done|].
    cbn [files stdout requests clock_reads]. rewrite lookup_insert_eq.
    destruct (os_error WriteText readme_file); by rewrite insert_insert_eq.
Qed.

(** The update of a file that holds text and may be read and written. *)
Lemma update_readme_text online offline readme_file w stored :
  files w !! readme_file = Some (text_file stored) ->
  os_error WriteText readme_file = None ->
  update_readme clock os_error online offline readme_file w =
    (Ok tt,
     World (<[readme_file :=
                text_file (splice (status_content (strftime (clock (clock_reads w)))
                                     online offline)
                                  (universal_newlines stored))]> (files w))
           (stdout w) (requests w) (S (clock_reads w))).
Proof.
  intros Hfile Hwrite. rewrite update_readme_run. cbv zeta.
  by rewrite Hfile, Hwrite.
Qed.

(** The URL the prober requests. *)
Lemma check_onion_service_requests url timeout w :
  requests (check_onion_service network url timeout w).2 =
    requests w ++ [(ensure_scheme url, timeout)].
Proof.
  rewrite check_onion_service_run. cbv zeta.
  destruct (network _ _ _) as [r|e]; [done|]. by destruct (is_Exception e).
Qed.

Lemma startswith_app_l (p q s : str) :
  Str.startswith (p ++ q) s = true -> Str.startswith p s = true.
Proof.
  rewrite !StrFacts.startswith_prefix. intros [r ->]. exists (q ++ r). by rewrite <- app_assoc.
Qed.

(** C5: the prober does not prepend [http://] to every URL without a
    recognized scheme prefix. Its test is [url.startswith('http')], so the
    host [httpbin.onion], which has no scheme, is requested as it is, where
    the specification has [http://httpbin.onion]. The URL requested is the
    one of the specification exactly when the URL has a scheme or does not
    start with [http]; [example.onion] and [https://example.onion] are of
    that kind. *)
Theorem scheme_less_http_host_requested_unchanged timeout w :
  spec_recognized_scheme (lit "httpbin.onion") = false /\
  spec_normalized_url (lit "httpbin.onion") = lit "http://httpbin.onion" /\
  requests (check_onion_service network (lit "httpbin.onion") timeout w).2 =
    requests w ++ [(lit "httpbin.onion", timeout)] /\
  (forall url,
     requests (check_onion_service network url timeout w).2 =
       requests w ++ [(spec_normalized_url url, timeout)] <->
     spec_recognized_scheme url = true \/ Str.startswith (lit "http") url = false) /\
  requests (check_onion_service network (lit "example.onion") timeout w).2 =
    requests w ++ [(lit "http://example.onion", timeout)] /\
  requests (check_onion_service network (lit "https://example.onion") timeout w).2 =
    requests w ++ [(lit "https://example.onion", timeout)].
Proof.
  split_and!; [done | done | by rewrite check_onion_service_requests | |
               by rewrite check_onion_service_requests |
               by rewrite check_onion_service_requests].
  intros url. rewrite check_onion_service_requests.
  assert (spec_recognized_scheme url = true -> Str.startswith (lit "http") url = true)
    as Hscheme.
  { unfold spec_recognized_scheme. intros [H|H]%orb_true_iff.
    - by apply (startswith_app_l (lit "http") (lit "://")).
    - by apply (startswith_app_l (lit "http") (lit "s://")). }
  unfold ensure_scheme, spec_normalized_url.
  destruct (spec_recognized_scheme url) eqn:Hspec.
  - rewrite Hscheme by done. cbn [negb]. split; [by left | done].
  - destruct (Str.startswith (lit "http") url) eqn:Hhttp; cbn [negb].
    + split; [|by intros [?|?]]. intros Heq. exfalso.
      apply app_inj_tail in Heq as [_ Heq]. injection Heq as Heq.
      apply (f_equal length) in Heq. simpl in Heq. lia.
    + split; [by right | done].
Qed.

(** C2: when a response is received the prober returns true exactly when
    its status code is below 500 (100-499 is online, 500 and above
    offline); on a transport failure (timeout, connection refused, proxy
    error, TLS failure) it returns false, after printing the kind of the
    failure, and raises nothing. *)
Theorem prober_classification url timeout w :
  (forall r,
     network (length (requests w)) (ensure_scheme url) timeout = Ok r ->
     (check_onion_service network url timeout w).1 =
       Ok (bool_decide (status_code r < 500)%Z) /\
     ((100 <= status_code r <= 499)%Z ->
      (check_onion_service network url timeout w).1 = Ok true) /\
     ((500 <= status_code r)%Z ->
      (check_onion_service network url timeout w).1 = Ok false)) /\
  (forall e,
     network (length (requests w)) (ensure_scheme url) timeout = Raise e ->
     transport_failure e = true ->
     (check_onion_service network url timeout w).1 = Ok false /\
     stdout (check_onion_service network url timeout w).2 =
       stdout w ++ [lit "  ❌ " ++ ensure_scheme url ++ lit ": " ++ type_name e]).
Proof.
  rewrite check_onion_service_run. cbv zeta. split.
  - intros r ->. simpl. split_and!; [done| |].
    + intros H. by rewrite bool_decide_eq_true_2 by lia.
    + intros H. by rewrite bool_decide_eq_false_2 by lia.
  - intros e -> He. by destruct e.
Qed.

(** C1: the loop of [main] puts every loaded service, by the outcome of its
    probe, in exactly one of the online and offline lists; the sizes add up
    to the number of services loaded and each list keeps the order of the
    input. *)
Theorem partition_of_services services w :
  (forall n url timeout e, network n url timeout = Raise e -> is_Exception e = true) ->
  exists online offline w',
    let ups := probe_outcomes network (length (requests w)) services in
    check_services network services [] [] w = (Ok (online, offline), w') /\
    length ups = length services /\
    online = select ups services /\
    offline = select (negb <$> ups) services /\
    length online + length offline = length services /\
    online ++ offline ≡ₚ services /\
    online `sublist_of` services /\
    offline `sublist_of` services.
Proof.
  intros Hnet.
  destruct (check_services_run services Hnet [] [] w) as (w' & Hrun).
  cbv zeta in *.
  pose proof (probe_outcomes_length (length (requests w)) services) as Hlen.
  eexists _, _, w'. split; [exact Hrun|].
  split_and!; try done.
  - by apply select_length.
  - by apply select_Permutation.
  - apply select_sublist.
  - apply select_sublist.
Qed.

(** C9: when [services.csv] does not exist, the loader raises
    [FileNotFoundError] to its caller, and [main] prints that the file was
    not found and returns: no request is issued, no file is written and the
    clock is not read. *)
Theorem missing_input_file w :
  files w !! lit "services.csv" = None ->
  read_services_csv DictReader (lit "services.csv") w = (Raise FileNotFoundError, w) /\
  exists w',
    main network clock DictReader os_error w = (Ok tt, w') /\
    requests w' = requests w /\
    files w' = files w /\
    clock_reads w' = clock_reads w /\
    stdout w' =
      stdout w ++ [lit "🧅 Starting Tor hidden service check...";
                   lit "❌ services.csv not found!"].
Proof.
  intros Hmiss. split; [by rewrite read_services_csv_run, read_file_missing|].
  eexists. unfold main. unfold bind at 1. unfold print at 1.
  unfold bind at 1, try_except at 1, bind at 1.
  rewrite read_services_csv_run, read_file_missing by done. simpl.
  split; [reflexivity|]. simpl. by rewrite <- app_assoc.
Qed.

End Runs.

(** ** The three cases of [splice] *)
Section SpliceFacts.
Import Str StrFacts.

(** A string made of characters other than the first of [sub] is skipped
    by the search. *)
Lemma first_occ_skip (h : ascii) (sub m rest : str) :
  h ∉ m ->
  first_occ (h :: sub) (m ++ rest) = (fun k => length m + k) <$> first_occ (h :: sub) rest.
Proof.
  induction m as [|x m IH]; intros Hm.
  - simpl. by destruct (first_occ (h :: sub) rest).
  - apply not_elem_of_cons in Hm as [Hne Hm].
    cbn [app first_occ]. rewrite startswith_head_ne by done.
    rewrite IH by done. by destruct (first_occ (h :: sub) rest).
Qed.

Lemma splice_absent (section readme : str) :
  contains start_marker readme = false ->
  splice section readme = readme ++ [LF] ++ section.
Proof. intros H. unfold splice. by rewrite H. Qed.

Lemma splice_replace (section readme : str) (n k : nat) :
  first_occ start_marker readme = Some n ->
  first_occ end_marker (drop n readme) = Some k ->
  splice section readme =
    take n readme ++ section ++ drop (n + k + length end_marker) readme.
Proof.
  intros Hs He. unfold splice.
  rewrite contains_first_occ, Hs, bool_decide_eq_true_2 by eauto.
  assert (n <= length readme) by (by apply first_occ_Some in Hs as (? & _)).
  rewrite find_0, Hs, find_nat, He by done.
  rewrite bool_decide_eq_true_2 by lia.
  unfold slice_to, slice_from. rewrite Nat2Z.id. do 3 f_equal. lia.
Qed.

Lemma splice_truncate (section readme : str) (n : nat) :
  first_occ start_marker readme = Some n ->
  first_occ end_marker (drop n readme) = None ->
  splice section readme = take n readme ++ section.
Proof.
  intros Hs He. unfold splice.
  rewrite contains_first_occ, Hs, bool_decide_eq_true_2 by eauto.
  assert (n <= length readme) by (by apply first_occ_Some in Hs as (? & _)).
  rewrite find_0, Hs, find_nat, He by done.
  rewrite bool_decide_eq_false_2 by (intros ?; done).
  unfold slice_to. by rewrite Nat2Z.id.
Qed.

Lemma CR_not_in_start_marker : CR ∉ start_marker.
Proof. apply (bool_decide_unpack _). by vm_compute. Qed.

Lemma LF_not_in_start_marker : LF ∉ start_marker.
Proof. apply (bool_decide_unpack _). by vm_compute. Qed.

(** The document around an existing section that is closed by the end
    marker. *)
Lemma section_span (readme : str) (n k : nat) :
  first_occ start_marker readme = Some n ->
  first_occ end_marker (drop n readme) = Some k ->
  exists body,
    readme = take n readme ++ (start_marker ++ body ++ end_marker)
             ++ drop (n + k + length end_marker) readme /\
    k = length start_marker + length body.
Proof.
  intros Hs He.
  pose proof (first_occ_split _ _ _ Hs) as Hsplit.
  set (rest := drop (n + length start_marker) readme) in *.
  assert (drop n readme = start_marker ++ rest) as Hdrop.
  { rewrite Hsplit at 1. rewrite drop_app_length'; [done|].
    rewrite length_take. apply first_occ_Some in Hs as (? & _). lia. }
  rewrite Hdrop in He.
  change end_marker with (LF :: lit "---" ++ [LF]) in He.
  rewrite first_occ_skip in He by apply LF_not_in_start_marker.
  apply fmap_Some in He as (k' & Hk' & ->).
  change (LF :: lit "---" ++ [LF]) with end_marker in Hk'.
  exists (take k' rest). split.
  - rewrite Hsplit at 1. f_equal. rewrite <- !app_assoc. f_equal.
    rewrite (first_occ_split _ _ _ Hk') at 1. do 2 f_equal.
    unfold rest. rewrite drop_drop. f_equal. lia.
  - rewrite length_take. apply first_occ_Some in Hk' as (? & _). lia.
Qed.

End SpliceFacts.

(** ** The rendered section and the updated document *)
Section ContainsFacts.
Import Str StrFacts.

Lemma contains_nil (s : str) : contains [] s = true.
Proof. by destruct s. Qed.

Lemma contains_app_l (sub a b : str) :
  contains sub a = true -> contains sub (a ++ b) = true.
Proof.
  induction a as [|c a IH]; simpl.
  - rewrite startswith_nil_r, bool_decide_eq_true. intros ->. apply contains_nil.
  - intros [H|H]%orb_true_iff; apply orb_true_iff; [left | right; by apply IH].
    apply startswith_prefix. apply startswith_prefix in H.
    by apply (prefix_app_r _ (c :: a) b).
Qed.

Lemma contains_app_r (sub a b : str) :
  contains sub b = true -> contains sub (a ++ b) = true.
Proof.
  intros H. induction a as [|c a IH]; [done|].
  simpl. rewrite IH. apply orb_true_r.
Qed.

Lemma contains_head (sub b : str) : contains sub (sub ++ b) = true.
Proof.
  pose proof (startswith_app sub b) as H.
  destruct (sub ++ b); simpl; [done|]. by rewrite H.
Qed.

End ContainsFacts.

(** C10: with no service loaded both lists are empty, and the rendered
    section holds the placeholder of the online list and the placeholder of
    the offline list; the latter is rendered whenever the offline list is
    empty, whatever the online list holds. *)
Theorem empty_lists_placeholders (timestamp : str) :
  Str.contains (lit "*No services are currently online.*")
    (status_content timestamp [] []) = true /\
  Str.contains (lit "*All services are online!*") (status_content timestamp [] []) = true /\
  forall online : list dict,
    Str.contains (lit "*All services are online!*") (status_content timestamp online [])
      = true.
Proof.
  assert (forall online : list dict,
    Str.contains (lit "*All services are online!*") (status_content timestamp online [])
      = true) as Hoff.
  { intros online. unfold status_content. cbv zeta.
    rewrite (bool_decide_eq_false_2 ([] <> [])) by (intros H; by apply H).
    apply contains_app_l, contains_app_r, contains_head. }
  split_and!; [|done|done].
  unfold status_content. cbv zeta.
  rewrite !(bool_decide_eq_false_2 ([] <> [])) by (intros H; by apply H).
  do 3 apply contains_app_l. apply contains_app_r, contains_head.
Qed.

Section Updates.
Variable clock : nat -> datetime.
Variable os_error : os_step -> str -> option refusal.
Import Str StrFacts.

(** C6 (amended): when the text read from the document, in which every
    line ending is a line feed, holds the start marker and, at or after
    it, the end marker, the updater replaces the span from the first start
    marker to the end of the first end marker that follows: it writes the
    text read before the span, the rendered section and the text read after
    the span. For a document without carriage returns the text read is the
    content of the file, so that what stands before and after the span is
    kept as it was. *)
Theorem existing_section_replaced online offline readme_file w stored :
  files w !! readme_file = Some (text_file stored) ->
  os_error WriteText readme_file = None ->
  contains start_marker (universal_newlines stored) = true ->
  find end_marker (universal_newlines stored)
       (find start_marker (universal_newlines stored) 0) <> (-1)%Z ->
  exists before body after w',
    universal_newlines stored = before ++ (start_marker ++ body ++ end_marker) ++ after /\
    find start_marker (universal_newlines stored) 0 = Z.of_nat (length before) /\
    find end_marker (universal_newlines stored) (Z.of_nat (length before)) =
      Z.of_nat (length before + length start_marker + length body) /\
    update_readme clock os_error online offline readme_file w = (Ok tt, w') /\
    files w' !! readme_file =
      Some (text_file
              (before ++ status_content (strftime (clock (clock_reads w))) online offline
               ++ after)) /\
    (CR ∉ stored -> stored = before ++ (start_marker ++ body ++ end_marker) ++ after).
Proof.
  intros Hfile Hwrite Hin Hend.
  set (readme := universal_newlines stored) in *.
  rewrite contains_first_occ, bool_decide_eq_true in Hin. destruct Hin as [n Hs].
  assert (n <= length readme) as Hn by (by apply first_occ_Some in Hs as (? & _)).
  rewrite find_0, Hs, find_nat in Hend by done.
  destruct (first_occ end_marker (drop n readme)) as [k|] eqn:He; [|done].
  destruct (section_span readme n k Hs He) as (body & Hsplit & Hk).
  assert (length (take n readme) = n) as Hlen by (rewrite length_take; lia).
  eexists (take n readme), body, _, _. split; [exact Hsplit|].
  rewrite Hlen, find_0, Hs, find_nat, He by done.
  split_and!; [done | f_equal; lia | by apply update_readme_text | |].
  - cbn [files]. rewrite lookup_insert_eq. fold readme.
    by rewrite (splice_replace _ _ n k).
  - intros HCR. rewrite <- Hsplit. unfold readme. by rewrite universal_newlines_id.
Qed.

(** C8 (amended): when the text read from the document, in which every
    line ending is a line feed, holds the start marker and no end marker
    at or after it, the updater keeps the text read before the first start
    marker and puts the rendered section after it; all that followed the
    start marker is dropped. For a document without carriage returns the
    text read is the content of the file. *)
Theorem unterminated_section_truncated online offline readme_file w stored :
  files w !! readme_file = Some (text_file stored) ->
  os_error WriteText readme_file = None ->
  contains start_marker (universal_newlines stored) = true ->
  find end_marker (universal_newlines stored)
       (find start_marker (universal_newlines stored) 0) = (-1)%Z ->
  exists before rest w',
    universal_newlines stored = before ++ start_marker ++ rest /\
    find start_marker (universal_newlines stored) 0 = Z.of_nat (length before) /\
    update_readme clock os_error online offline readme_file w = (Ok tt, w') /\
    files w' !! readme_file =
      Some (text_file
              (before ++ status_content (strftime (clock (clock_reads w))) online offline)) /\
    (CR ∉ stored -> stored = before ++ start_marker ++ rest).
Proof.
  intros Hfile Hwrite Hin Hend.
  set (readme := universal_newlines stored) in *.
  rewrite contains_first_occ, bool_decide_eq_true in Hin. destruct Hin as [n Hs].
  assert (n <= length readme) as Hn by (by apply first_occ_Some in Hs as (? & _)).
  rewrite find_0, Hs, find_nat in Hend by done.
  destruct (first_occ end_marker (drop n readme)) as [k|] eqn:He; [lia|].
  assert (length (take n readme) = n) as Hlen by (rewrite length_take; lia).
  eexists (take n readme), _, _. split; [exact (first_occ_split _ _ _ Hs)|].
  rewrite Hlen, find_0, Hs.
  split_and!; [done | by apply update_readme_text | |].
  - cbn [files]. rewrite lookup_insert_eq. fold readme.
    by rewrite (splice_truncate _ _ n).
  - intros HCR. rewrite <- (first_occ_split _ _ _ Hs). unfold readme.
    by rewrite universal_newlines_id.
Qed.

End Updates.

(** C6, as stated, does not hold: in a document whose lines outside the
    section end with a carriage return and a line feed, the section is
    closed by the end marker, and the updater writes the lines before and
    after it with a line feed only. *)
Lemma existing_section_replaced_counterexample :
  let section := status_content (strftime (example_clock 0)) [] [] in
  let before := lit "# Notes" ++ [CR; LF] in
  let body := [LF] ++ lit "old" in
  let after := lit "Footer" ++ [CR; LF] in
  crlf_around_section = before ++ (start_marker ++ body ++ end_marker) ++ after /\
  Str.find start_marker crlf_around_section 0 = Z.of_nat (length before) /\
  Str.find end_marker crlf_around_section (Z.of_nat (length before)) =
    Z.of_nat (length before + length start_marker + length body) /\
  update_readme example_clock no_os_error [] [] (lit "README.md") crlf_around_section_world =
    (Ok tt,
     World {[ lit "README.md" :=
                text_file ((lit "# Notes" ++ [LF]) ++ section ++ (lit "Footer" ++ [LF])) ]}
           [] [] 1) /\
  (lit "# Notes" ++ [LF]) ++ section ++ (lit "Footer" ++ [LF]) <> before ++ section ++ after.
Proof. cbv zeta. split_and!; by vm_compute. Qed.

(** C8, as stated, does not hold: in a document all of whose lines end
    with a carriage return and a line feed, no end marker follows the start
    marker, and yet the updater, which reads every line ending as a line
    feed, finds one and keeps the footer. *)
Lemma unterminated_section_truncated_counterexample :
  let section := status_content (strftime (example_clock 0)) [] [] in
  let before := lit "# Notes" ++ [CR; LF] in
  Str.contains start_marker crlf_readme = true /\
  Str.find start_marker crlf_readme 0 = Z.of_nat (length before) /\
  Str.find end_marker crlf_readme (Str.find start_marker crlf_readme 0) = (-1)%Z /\
  update_readme example_clock no_os_error [] [] (lit "README.md") crlf_world =
    (Ok tt,
     World {[ lit "README.md" :=
                text_file ((lit "# Notes" ++ [LF]) ++ section ++ (lit "Footer" ++ [LF])) ]}
           [] [] 1) /\
  (lit "# Notes" ++ [LF]) ++ section ++ (lit "Footer" ++ [LF]) <> before ++ section.
Proof. cbv zeta. split_and!; by vm_compute. Qed.

Section Appends.
Variable clock : nat -> datetime.
Variable os_error : os_step -> str -> option refusal.
Import Str StrFacts.

Lemma leading_LF_le (s : str) : leading_LF s <= length s.
Proof. induction s as [|c s IH]; simpl; [done|]. case_bool_decide; lia. Qed.

Lemma leading_LF_all (s : str) : leading_LF s = length s -> leading_LF s = 0 -> s = [].
Proof. destruct s; [done|]. simpl. intros H1 H2. lia. Qed.

(** The blank lines before a section appended after one line feed. *)
Lemma blank_lines_before_appended (section readme : str) :
  blank_lines_before section (readme ++ [LF] ++ section) =
    let n := leading_LF (reverse readme) in
    if bool_decide (n = length readme) then S n else n.
Proof.
  unfold blank_lines_before, blank_lines_at_end.
  rewrite app_assoc, length_app, Nat.add_sub, take_app_length.
  rewrite reverse_app, length_app. simpl.
  case_bool_decide; case_bool_decide; lia.
Qed.

(** C7 (amended): when the document does not hold the start marker, the
    updater writes the text read from it, in which every line ending is a
    line feed, then one line feed, and the rendered section. The text read
    is the content of the file when that holds no carriage return. The
    section then follows exactly one blank line just when the text read is
    empty or ends with a single line feed that closes a line of text. *)
Theorem section_appended online offline readme_file w stored :
  files w !! readme_file = Some (text_file stored) ->
  os_error WriteText readme_file = None ->
  contains start_marker stored = false ->
  exists w',
    let readme := universal_newlines stored in
    let section := status_content (strftime (clock (clock_reads w))) online offline in
    update_readme clock os_error online offline readme_file w = (Ok tt, w') /\
    files w' !! readme_file = Some (text_file (readme ++ [LF] ++ section)) /\
    (CR ∉ stored -> readme = stored) /\
    (blank_lines_before section (readme ++ [LF] ++ section) = 1 <->
       readme = [] \/ (leading_LF (reverse readme) = 1 /\ readme <> [LF])).
Proof.
  intros Hfile Hwrite Hin. eexists. cbv zeta.
  set (readme := universal_newlines stored).
  assert (contains start_marker readme = false) as Hread.
  { unfold readme. rewrite contains_universal_newlines; [done | done | |].
    - apply CR_not_in_start_marker.
    - apply LF_not_in_start_marker. }
  split; [by apply update_readme_text|]. split_and!.
  - cbn [files]. rewrite lookup_insert_eq. fold readme. by rewrite splice_absent.
  - apply universal_newlines_id.
  - rewrite blank_lines_before_appended. cbv zeta.
    pose proof (leading_LF_le (reverse readme)) as Hle.
    rewrite length_reverse in Hle.
    case_bool_decide as Hall; split.
    + intros [= H0]. left. apply (inj reverse).
      apply leading_LF_all; [by rewrite length_reverse | done].
    + intros [-> | [H1 Hne]]; [done|]. exfalso. apply Hne.
      destruct readme as [|c [|c' readme']]; simpl in *; [done| |lia].
      rewrite H1 in Hall. clear Hall. revert H1. unfold reverse. simpl.
      case_bool_decide; [by subst | done].
    + intros H1. right. split; [done|]. intros Heq. rewrite Heq in Hall. by apply Hall.
    + intros [Heq | [H1 _]]; [rewrite Heq in Hall; by destruct Hall | done].
Qed.

End Appends.

(** C7, as stated, does not hold: a section appended to a document whose
    last line is not ended by a line feed follows no blank line, and one
    appended to the document the updater starts from when the file does not
    exist follows two; and a document whose line ends with a carriage
    return and a line feed is not kept as it was, the updater writes its
    line with a line feed only. *)
Lemma appended_section_blank_lines_counterexample :
  let section := status_content (strftime (example_clock 0)) [] [] in
  (Str.contains start_marker (lit "# Notes") = false /\
   update_readme example_clock no_os_error [] [] (lit "README.md") notes_world =
     (Ok tt,
      World {[ lit "README.md" := text_file (lit "# Notes" ++ [LF] ++ section) ]} [] [] 1) /\
   blank_lines_before section (lit "# Notes" ++ [LF] ++ section) = 0) /\
  (Str.contains start_marker fresh_readme = false /\
   update_readme example_clock no_os_error [] [] (lit "README.md") empty_world =
     (Ok tt,
      World {[ lit "README.md" := text_file (fresh_readme ++ [LF] ++ section) ]} [] [] 1) /\
   blank_lines_before section (fresh_readme ++ [LF] ++ section) = 2) /\
  (Str.contains start_marker crlf_notes = false /\
   update_readme example_clock no_os_error [] [] (lit "README.md") crlf_notes_world =
     (Ok tt,
      World {[ lit "README.md" := text_file ((lit "# Notes" ++ [LF]) ++ [LF] ++ section) ]}
            [] [] 1) /\
   Str.startswith crlf_notes ((lit "# Notes" ++ [LF]) ++ [LF] ++ section) = false).
Proof. cbv zeta. split_and!; by vm_compute. Qed.

Lemma section_appended_witness :
  exists w',
    let readme := universal_newlines (lit "# Notes") in
    let section := status_content (strftime (example_clock 0)) [alpha_service] [] in
    update_readme example_clock no_os_error [alpha_service] [] (lit "README.md") notes_world
      = (Ok tt, w') /\
    files w' !! lit "README.md" = Some (text_file (readme ++ [LF] ++ section)) /\
    (CR ∉ lit "# Notes" -> readme = lit "# Notes") /\
    (blank_lines_before section (readme ++ [LF] ++ section) = 1 <->
       readme = [] \/ (leading_LF (reverse readme) = 1 /\ readme <> [LF])).
Proof.
  apply (section_appended example_clock no_os_error [alpha_service] [] (lit "README.md")
           notes_world (lit "# Notes")).
  - reflexivity.
  - reflexivity.
  - reflexivity.
Defined.

(** ** Counting occurrences *)
Section CountFacts.
Import Str StrFacts.

Lemma count_nil (sub : str) : sub <> [] -> count sub [] = 0.
Proof. by destruct sub. Qed.

Lemma count_cons_ne (h x : ascii) (p s : str) :
  h <> x -> count (h :: p) (x :: s) = count (h :: p) s.
Proof. intros H. cbn [count]. by rewrite startswith_head_ne. Qed.

(** A string without the first character of [sub] holds no start of an
    occurrence. *)
Lemma count_skip (h : ascii) (p l rest : str) :
  h ∉ l -> count (h :: p) (l ++ rest) = count (h :: p) rest.
Proof.
  induction l as [|x l IH]; [done|].
  intros [Hne Hl]%not_elem_of_cons. cbn [app]. rewrite count_cons_ne by done. auto.
Qed.

(** No occurrence goes across a character that [sub] does not contain. *)
Lemma count_barrier (sub a b : str) (c : ascii) :
  sub <> [] -> c ∉ sub ->
  count sub (a ++ c :: b) = count sub a + count sub b.
Proof.
  intros Hne Hc. induction a as [|x a IH].
  - destruct sub as [|h p]; [done|]. apply not_elem_of_cons in Hc as [Hhc _].
    cbn [app]. by rewrite count_cons_ne.
  - cbn [app count]. rewrite IH.
    change (x :: a ++ c :: b) with ((x :: a) ++ c :: b).
    rewrite startswith_barrier by done. lia.
Qed.

(** [l] ends with a character that [sub] does not contain. *)
Lemma count_app_closed (sub l rest : str) (c : ascii) :
  last l = Some c -> sub <> [] -> c ∉ sub ->
  count sub (l ++ rest) = count sub l + count sub rest.
Proof.
  intros Hlast Hne Hc.
  apply last_Some in Hlast as [l' ->].
  rewrite <- app_assoc. cbn [app].
  rewrite !count_barrier by done. rewrite count_nil by done. lia.
Qed.

(** [l] starts with a character that [sub] does not contain. *)
Lemma count_app_opened (sub a l : str) (c : ascii) :
  head l = Some c -> sub <> [] -> c ∉ sub ->
  count sub (a ++ l) = count sub a + count sub l.
Proof.
  intros Hhead Hne Hc. destruct l as [|x l]; [done|].
  simpl in Hhead. injection Hhead as ->.
  rewrite count_barrier by done.
  destruct sub as [|h p]; [done|]. apply not_elem_of_cons in Hc as [Hhc _].
  by rewrite count_cons_ne.
Qed.

Lemma count_contains (sub s : str) : count sub s = 0 <-> contains sub s = false.
Proof.
  induction s as [|x s IH]; simpl.
  - by destruct (startswith sub []).
  - destruct (startswith sub (x :: s)); simpl; [split; [lia|done]|]. apply IH.
Qed.

Lemma count_notin (h : ascii) (p s : str) : h ∉ s -> count (h :: p) s = 0.
Proof.
  intros H. rewrite <- (app_nil_r s). rewrite count_skip by done. done.
Qed.

Lemma count_drop_le (sub s : str) (j : nat) : count sub (drop j s) <= count sub s.
Proof.
  revert j. induction s as [|x s IH]; intros [|j]; simpl; try lia.
  specialize (IH j). lia.
Qed.

(** Before its first occurrence [sub] does not occur, whatever follows
    that occurrence. *)
Lemma count_before_first (sub pre x y : str) :
  first_occ sub (pre ++ sub ++ x) = Some (length pre) ->
  count sub (pre ++ sub ++ y) = count sub (sub ++ y).
Proof.
  induction pre as [|c pre IH]; [done|].
  cbn [app first_occ count length].
  destruct (startswith sub (c :: pre ++ sub ++ x)) eqn:E; [done|].
  intros (n & Hn & [= <-])%fmap_Some. rewrite IH by done.
  change (c :: pre ++ sub ++ y) with ((c :: pre) ++ sub ++ y).
  change (c :: pre ++ sub ++ x) with ((c :: pre) ++ sub ++ x) in E.
  rewrite app_assoc, startswith_app_long in E |- *
    by (rewrite length_app; lia).
  by rewrite E.
Qed.

Lemma first_occ_before_first (sub pre x y : str) :
  first_occ sub (pre ++ sub ++ x) = Some (length pre) ->
  first_occ sub (pre ++ sub ++ y) = Some (length pre).
Proof.
  induction pre as [|c pre IH].
  - intros _. simpl. pose proof (startswith_app sub y) as H.
    destruct (sub ++ y) eqn:E; simpl; [|by rewrite H].
    apply app_eq_nil in E as [-> _]. done.
  - cbn [app first_occ length].
    destruct (startswith sub (c :: pre ++ sub ++ x)) eqn:E; [done|].
    intros (n & Hn & [= <-])%fmap_Some. rewrite IH by done.
    change (c :: pre ++ sub ++ y) with ((c :: pre) ++ sub ++ y).
    change (c :: pre ++ sub ++ x) with ((c :: pre) ++ sub ++ x) in E.
    rewrite app_assoc, startswith_app_long in E |- *
      by (rewrite length_app; lia).
    by rewrite E.
Qed.

End CountFacts.

(** ** The text of the rendered section *)
Section SectionText.
Import Str StrFacts.

Lemma online_entry_app (acc : str) (service : dict) :
  online_entry acc service = acc ++ online_item service.
Proof.
  unfold online_item, online_entry. cbv zeta.
  case_bool_decide; by rewrite ?app_nil_l, <- ?app_assoc.
Qed.

Lemma offline_entry_app (acc : str) (service : dict) :
  offline_entry acc service = acc ++ offline_item service.
Proof. done. Qed.

Lemma foldl_online_entry (acc : str) (services : list dict) :
  foldl online_entry acc services = acc ++ (services ≫= online_item).
Proof.
  revert acc. induction services as [|s l IH]; intros acc; simpl.
  - by rewrite app_nil_r.
  - by rewrite IH, online_entry_app, <- app_assoc.
Qed.

Lemma foldl_offline_entry (acc : str) (services : list dict) :
  foldl offline_entry acc services = acc ++ (services ≫= offline_item).
Proof.
  revert acc. induction services as [|s l IH]; intros acc; simpl.
  - by rewrite app_nil_r.
  - by rewrite IH, offline_entry_app, <- app_assoc.
Qed.

Lemma online_item_eq (service : dict) :
  online_item service =
    lit "- **" ++ get service (lit "name") (lit "Unknown") ++ lit "**" ++ [LF]
    ++ lit "  - URL: `" ++ get service (lit "url") [] ++ lit "`" ++ [LF]
    ++ (if bool_decide (get service (lit "description") [] <> [])
        then lit "  - " ++ get service (lit "description") [] ++ [LF] else [])
    ++ [LF].
Proof.
  unfold online_item, online_entry. cbv zeta.
  case_bool_decide; by rewrite ?app_nil_l, <- ?app_assoc.
Qed.

Lemma offline_item_eq (service : dict) :
  offline_item service =
    lit "- **" ++ get service (lit "name") (lit "Unknown") ++ lit "** - `"
    ++ get service (lit "url") [] ++ lit "`" ++ [LF].
Proof. done. Qed.

(** The section, piece by piece. *)
Lemma status_content_eq (timestamp : str) (online offline : list dict) :
  status_content timestamp online offline =
    start_marker ++ [LF; LF]
    ++ lit "*Last checked: " ++ timestamp ++ lit "*" ++ [LF; LF]
    ++ lit "### ✅ Online Services (" ++ decimal (length online) ++ lit ")" ++ [LF; LF]
    ++ online_list online
    ++ lit "### ❌ Offline Services (" ++ decimal (length offline) ++ lit ")" ++ [LF; LF]
    ++ offline_list offline
    ++ end_marker.
Proof.
  unfold status_content, online_list, offline_list. cbv zeta.
  rewrite foldl_online_entry.
  case_bool_decide; case_bool_decide;
    rewrite ?foldl_offline_entry; by rewrite <- ?app_assoc.
Qed.

Lemma status_content_starts (timestamp : str) (online offline : list dict) :
  exists rest, status_content timestamp online offline = start_marker ++ rest.
Proof. rewrite status_content_eq. eauto. Qed.

Lemma status_content_ends (timestamp : str) (online offline : list dict) :
  exists body, status_content timestamp online offline = body ++ end_marker.
Proof.
  rewrite status_content_eq. eexists. rewrite !app_assoc. reflexivity.
Qed.

(** The characters of numbers and of the timestamp. *)
Lemma decimal_chars (n : nat) (c : ascii) : c ∈ decimal n -> c ∈ lit "0123456789".
Proof.
  unfold decimal, lit. generalize (Nat.to_uint n). intros d.
  induction d as [|d IH|d IH|d IH|d IH|d IH|d IH|d IH|d IH|d IH|d IH]; simpl;
    [by intros ?%elem_of_nil|..];
    (intros [->|Hc]%elem_of_cons;
     [apply (bool_decide_unpack _); by vm_compute | by apply IH]).
Qed.

Lemma zero_pad_chars (width n : nat) (c : ascii) :
  c ∈ zero_pad width n -> c ∈ lit "0123456789".
Proof.
  unfold zero_pad. intros [H|H]%elem_of_app; [|by eapply decimal_chars].
  apply elem_of_replicate in H as [-> _].
  apply (bool_decide_unpack _). by vm_compute.
Qed.

Lemma strftime_chars (d : datetime) (c : ascii) :
  c ∈ strftime d -> c ∈ lit "0123456789-: UTC".
Proof.
  unfold strftime.
  assert (forall c, c ∈ lit "0123456789" -> c ∈ lit "0123456789-: UTC") as Hsub.
  { clear. intros c H. change (lit "0123456789-: UTC") with (lit "0123456789" ++ lit "-: UTC").
    apply elem_of_app. by left. }
  assert (forall c l, c ∈ l -> Forall (fun x => x ∈ lit "0123456789-: UTC") l ->
                      c ∈ lit "0123456789-: UTC")
    as Hlit by (intros ?? H1 H2; by eapply (proj1 (Forall_forall _ _)) in H2).
  intros H. repeat (apply elem_of_app in H; destruct H as [H|H]);
    first [ by eapply Hsub, decimal_chars
          | apply elem_of_replicate in H as [-> _];
            apply (bool_decide_unpack _); by vm_compute
          | apply (Hlit _ _ H); apply (bool_decide_unpack _); by vm_compute ].
Qed.

End SectionText.

(** ** The start marker in the rendered section *)
Section StartMarkerCount.
Import Str StrFacts.

Local Ltac notin := apply (bool_decide_unpack _); by vm_compute.

Lemma start_marker_ne : start_marker <> [].
Proof. done. Qed.

Lemma hash_not_digit : "#"%char ∉ lit "0123456789".
Proof. notin. Qed.

Lemma count_start_skip (l rest : str) :
  "#"%char ∉ l -> count start_marker (l ++ rest) = count start_marker rest.
Proof.
  change start_marker with ("#"%char :: lit "# 🧅 Tor Hidden Services Status").
  apply count_skip.
Qed.

Local Ltac count_lit := rewrite count_start_skip by notin.
Local Ltac count_field c :=
  rewrite (count_app_opened start_marker _ _ c); [ | reflexivity | done | notin ].

Lemma count_start_decimal (n : nat) (rest : str) :
  count start_marker (decimal n ++ rest) = count start_marker rest.
Proof.
  apply count_start_skip. intros H%decimal_chars. by apply hash_not_digit.
Qed.

Lemma count_start_strftime (d : datetime) : count start_marker (strftime d) = 0.
Proof.
  rewrite <- (app_nil_r (strftime d)), count_start_skip; [done|].
  intros H%strftime_chars. revert H. notin.
Qed.

Lemma count_start_online_item (service : dict) (rest : str) :
  count start_marker (get service (lit "name") (lit "Unknown")) = 0 ->
  count start_marker (get service (lit "url") []) = 0 ->
  count start_marker (get service (lit "description") []) = 0 ->
  count start_marker (online_item service ++ rest) = count start_marker rest.
Proof.
  intros Hname Hurl Hdesc. rewrite online_item_eq, <- !app_assoc.
  count_lit. count_field "*"%char. rewrite Hname. count_lit. count_lit. count_lit.
  count_field "`"%char. rewrite Hurl. count_lit. count_lit.
  case_bool_decide.
  - rewrite <- !app_assoc. count_lit. count_field LF. rewrite Hdesc.
    count_lit. by count_lit.
  - rewrite app_nil_l. by count_lit.
Qed.

Lemma count_start_offline_item (service : dict) (rest : str) :
  count start_marker (get service (lit "name") (lit "Unknown")) = 0 ->
  count start_marker (get service (lit "url") []) = 0 ->
  count start_marker (offline_item service ++ rest) = count start_marker rest.
Proof.
  intros Hname Hurl. rewrite offline_item_eq, <- !app_assoc.
  count_lit. count_field "*"%char. rewrite Hname. count_lit.
  count_field "`"%char. rewrite Hurl. count_lit. by count_lit.
Qed.

Lemma count_start_status_content (timestamp : str) (online offline : list dict) :
  count start_marker timestamp = 0 ->
  (forall field, field ∈ rendered_fields online offline ->
                 contains start_marker field = false) ->
  count start_marker (status_content timestamp online offline) = 1.
Proof.
  intros Hts Hfields.
  assert (forall field, field ∈ rendered_fields online offline ->
                        count start_marker field = 0) as Hcount
    by (intros f Hf; by apply count_contains, Hfields).
  clear Hfields. unfold rendered_fields in Hcount.
  assert (forall rest, count start_marker (online_list online ++ rest)
                       = count start_marker rest) as Hon.
  { intros rest. unfold online_list. case_bool_decide; [|rewrite <- app_assoc; by count_lit; count_lit].
    assert (forall s, s ∈ online ->
      count start_marker (get s (lit "name") (lit "Unknown")) = 0 /\
      count start_marker (get s (lit "url") []) = 0 /\
      count start_marker (get s (lit "description") []) = 0) as Hs.
    { intros s Hs. split_and!; apply Hcount, elem_of_app; left;
        apply list_elem_of_bind; exists s; (split; [|done]); rewrite !elem_of_cons; auto. }
    clear Hcount. induction online as [|s l IH]; [done|].
    rewrite bind_cons. rewrite <- app_assoc.
    destruct (Hs s) as (? & ? & ?); [left|].
    rewrite count_start_online_item by done.
    destruct l; [done|]. apply IH; [done|]. intros s' Hs'. apply Hs. by right. }
  assert (forall rest, count start_marker (offline_list offline ++ rest)
                       = count start_marker rest) as Hoff.
  { intros rest. unfold offline_list. case_bool_decide; [|rewrite <- app_assoc; by count_lit; count_lit].
    assert (forall s, s ∈ offline ->
      count start_marker (get s (lit "name") (lit "Unknown")) = 0 /\
      count start_marker (get s (lit "url") []) = 0) as Hs.
    { intros s Hs. split_and!; apply Hcount, elem_of_app; right;
        apply list_elem_of_bind; exists s; (split; [|done]); rewrite !elem_of_cons; auto. }
    clear Hcount Hon. induction offline as [|s l IH]; [done|].
    rewrite bind_cons. rewrite <- app_assoc.
    destruct (Hs s) as (? & ?); [left|].
    rewrite count_start_offline_item by done.
    destruct l; [done|]. apply IH; [done|]. intros s' Hs'. apply Hs. by right. }
  rewrite status_content_eq.
  count_field LF. count_lit. count_lit. count_field "*"%char. rewrite Hts.
  count_lit. count_lit.
  rewrite (count_app_closed start_marker (lit "### ✅ Online Services (") _ "("%char);
    [ | reflexivity | done | notin ].
  rewrite count_start_decimal. count_lit. count_lit. rewrite Hon.
  rewrite (count_app_closed start_marker (lit "### ❌ Offline Services (") _ "("%char);
    [ | reflexivity | done | notin ].
  rewrite count_start_decimal. count_lit. count_lit. rewrite Hoff.
  by vm_compute.
Qed.

End StartMarkerCount.

(** ** The start marker in the updated document *)
Section SpliceCount.
Import Str StrFacts.

(** What [splice] keeps and what it writes, with and without a section in
    the document. *)
Lemma splice_cases (section readme : str) :
  (contains start_marker readme = false /\
   before_section readme = readme /\ after_section readme = [] /\
   splice section readme = readme ++ [LF] ++ section) \/
  (exists n rest,
     contains start_marker readme = true /\
     first_occ start_marker readme = Some n /\
     before_section readme = take n readme /\
     length (take n readme) = n /\
     readme = take n readme ++ start_marker ++ rest /\
     (exists body, rest = body ++ after_section readme) /\
     splice section readme = take n readme ++ section ++ after_section readme).
Proof.
  destruct (contains start_marker readme) eqn:Hin.
  - right. pose proof Hin as Hin'.
    rewrite contains_first_occ, bool_decide_eq_true in Hin'. destruct Hin' as [n Hs].
    assert (n <= length readme) as Hn by (by apply first_occ_Some in Hs as (? & _)).
    exists n, (drop (n + length start_marker) readme).
    unfold before_section, after_section. rewrite Hin, find_0, Hs. cbv zeta.
    unfold slice_to. rewrite Nat2Z.id, find_nat by done.
    split_and!; [done | done | done | rewrite length_take; lia
                | by apply first_occ_split | | ].
    + destruct (first_occ end_marker (drop n readme)) as [k|] eqn:He.
      * rewrite bool_decide_eq_true_2 by lia.
        destruct (section_span readme n k Hs He) as (body & Hsplit & Hk).
        exists (body ++ end_marker).
        apply (app_inv_head start_marker), (app_inv_head (take n readme)).
        rewrite <- first_occ_split by done. rewrite Hsplit at 1.
        rewrite <- !app_assoc. do 4 f_equal. unfold slice_from. f_equal. lia.
      * rewrite bool_decide_eq_false_2 by (intros ?; done).
        eexists. by rewrite app_nil_r.
    + destruct (first_occ end_marker (drop n readme)) as [k|] eqn:He.
      * rewrite bool_decide_eq_true_2 by lia.
        rewrite (splice_replace _ _ n k) by done.
        do 2 f_equal. unfold slice_from. f_equal. lia.
      * rewrite bool_decide_eq_false_2 by (intros ?; done).
        rewrite (splice_truncate _ _ n) by done. by rewrite app_nil_r.
  - left. unfold before_section, after_section. rewrite Hin.
    split_and!; try done. by apply splice_absent.
Qed.

(** The text outside the section is kept. *)
Lemma splice_frame (section readme : str) :
  (exists span, readme = before_section readme ++ span ++ after_section readme) /\
  splice section readme =
    before_section readme
    ++ (if contains start_marker readme then [] else [LF])
    ++ section ++ after_section readme.
Proof.
  destruct (splice_cases section readme)
    as [(Hin & Hb & Ha & Hsp) | (n & rest & Hin & _ & Hb & _ & Hr & [body Hbody] & Hsp)];
    rewrite Hin, Hsp, Hb.
  - rewrite Ha. split; [exists []|]; by rewrite ?app_nil_r.
  - split; [|done]. exists (start_marker ++ body).
    by rewrite <- !app_assoc, <- Hbody.
Qed.

Lemma LF_not_in_sub_first_occ (sub a b : str) :
  sub <> [] -> LF ∉ sub -> first_occ sub a = None ->
  first_occ sub (a ++ LF :: b) = (fun k => length a + 1 + k) <$> first_occ sub b.
Proof.
  intros Hne Hc. induction a as [|x a IH]; intros Ha.
  - destruct sub as [|h p]; [done|]. apply not_elem_of_cons in Hc as [Hh _].
    cbn [app first_occ]. rewrite startswith_head_ne by done.
    by destruct (first_occ (h :: p) b).
  - cbn [app first_occ] in *.
    change (x :: a ++ LF :: b) with ((x :: a) ++ LF :: b).
    rewrite startswith_barrier by done.
    destruct (startswith sub (x :: a)); [done|].
    apply fmap_None in Ha. rewrite IH by done.
    by destruct (first_occ sub b).
Qed.

Lemma first_occ_head (sub rest : str) : sub <> [] -> first_occ sub (sub ++ rest) = Some 0.
Proof.
  intros Hne. pose proof (startswith_app sub rest) as H.
  destruct sub as [|h p]; [done|]. cbn [app first_occ] in *. by rewrite H.
Qed.

(** Where the section written by [splice] starts: at the first start
    marker of the new document. *)
Lemma splice_first_occ (section readme : str) :
  (exists rest, section = start_marker ++ rest) ->
  first_occ start_marker (splice section readme) =
    Some (length (before_section readme
                  ++ (if contains start_marker readme then [] else [LF]))).
Proof.
  intros [r ->].
  destruct (splice_cases (start_marker ++ r) readme)
    as [(Hin & Hb & Ha & Hsp) | (n & rest & Hin & Hs & Hb & Hlen & Hr & _ & Hsp)];
    rewrite Hin, Hsp, Hb.
  - rewrite contains_first_occ in Hin. apply bool_decide_eq_false in Hin.
    rewrite <- eq_None_not_Some in Hin. cbn [app].
    rewrite LF_not_in_sub_first_occ; [|done|apply LF_not_in_start_marker|done].
    rewrite first_occ_head by done. simpl.
    rewrite length_app. simpl. f_equal. lia.
  - rewrite app_nil_r, <- app_assoc.
    rewrite Hr in Hs at 1. rewrite <- Hlen in Hs at 2.
    by rewrite (first_occ_before_first _ _ _ _ Hs).
Qed.

Lemma count_start_head (rest : str) :
  count start_marker (start_marker ++ rest) = 1 + count start_marker (drop 1 (start_marker ++ rest)).
Proof.
  pose proof (startswith_app start_marker rest) as H.
  change start_marker with ("#"%char :: lit "# 🧅 Tor Hidden Services Status") in *.
  cbn [app count drop]. cbn [app] in H. by rewrite H.
Qed.

(** The start marker occurs once in the new document, when it occurs once
    in the section and not after the section that was replaced. *)
Lemma count_start_splice (section readme : str) :
  (exists rest, section = start_marker ++ rest) ->
  last section = Some LF ->
  count start_marker section = 1 ->
  count start_marker (after_section readme) = 0 ->
  count start_marker (splice section readme) = 1.
Proof.
  intros [r Hr] Hlast Hone Hafter.
  destruct (splice_cases section readme)
    as [(Hin & _ & _ & Hsp) | (n & rest & Hin & Hs & _ & Hlen & Hsplit & _ & Hsp)];
    rewrite Hsp.
  - apply count_contains in Hin. cbn [app].
    rewrite (count_barrier _ readme) by (done || apply LF_not_in_start_marker).
    lia.
  - rewrite Hsplit in Hs at 1. rewrite <- Hlen in Hs at 2.
    rewrite Hr, <- app_assoc, (count_before_first _ _ _ _ Hs), app_assoc, <- Hr.
    rewrite (count_app_closed _ _ _ LF) by (done || apply LF_not_in_start_marker).
    lia.
Qed.

(** A document that holds the start marker at most once does not hold it
    after its section. *)
Lemma after_section_single_marker (readme : str) :
  count start_marker readme <= 1 -> count start_marker (after_section readme) = 0.
Proof.
  intros Hle.
  destruct (splice_cases [] readme)
    as [(_ & _ & -> & _) | (n & rest & _ & _ & _ & Hlen & Hsplit & [body Hbody] & _)];
    [done|].
  pose proof (count_drop_le start_marker readme n) as Hdrop.
  rewrite Hsplit in Hdrop at 1. rewrite drop_app_length' in Hdrop by done.
  rewrite Hbody in Hdrop at 1. rewrite count_start_head in Hdrop.
  pose proof (count_drop_le start_marker (drop 1 (start_marker ++ body ++ after_section readme))
                (length start_marker + length body - 1)) as Hafter.
  rewrite drop_drop in Hafter.
  replace (1 + (length start_marker + length body - 1))
    with (length (start_marker ++ body)) in Hafter
    by (rewrite length_app; simpl; lia).
  rewrite app_assoc, drop_app_length, <- app_assoc in Hafter. lia.
Qed.

End SpliceCount.
Section OneSection.
Variable clock : nat -> datetime.
Variable os_error : os_step -> str -> option refusal.
Import Str StrFacts.

Lemma status_content_last (timestamp : str) (online offline : list dict) :
  last (status_content timestamp online offline) = Some LF.
Proof.
  destruct (status_content_ends timestamp online offline) as [body ->].
  change end_marker with ((LF :: lit "---") ++ [LF]).
  by rewrite app_assoc, last_snoc.
Qed.

(** C3 (amended): the updater writes the text read from the document, in
    which every line ending is a line feed, with the span of the previous
    section replaced: the text read before and after that span is kept, and
    it is the content of the file when that holds no carriage return. The
    new document holds the start marker exactly once when no name, URL or
    description that is rendered holds the start marker and the start
    marker does not occur after the span of the previous section. *)
Theorem one_section_after_update online offline readme_file w stored :
  files w !! readme_file = Some (text_file stored) ->
  os_error WriteText readme_file = None ->
  exists w' document,
    let readme := universal_newlines stored in
    let section := status_content (strftime (clock (clock_reads w))) online offline in
    update_readme clock os_error online offline readme_file w = (Ok tt, w') /\
    files w' !! readme_file = Some (text_file document) /\
    (CR ∉ stored -> readme = stored) /\
    (exists span, readme = before_section readme ++ span ++ after_section readme) /\
    document =
      before_section readme
      ++ (if contains start_marker readme then [] else [LF])
      ++ section ++ after_section readme /\
    ((forall field, field ∈ rendered_fields online offline ->
                    contains start_marker field = false) ->
     count start_marker (after_section readme) = 0 ->
     count start_marker document = 1).
Proof.
  intros Hfile Hwrite.
  set (readme := universal_newlines stored).
  set (section := status_content (strftime (clock (clock_reads w))) online offline).
  eexists _, (splice section readme).
  cbv zeta. fold readme section.
  split; [by apply update_readme_text|].
  split; [cbn [files]; by rewrite lookup_insert_eq|].
  split; [apply universal_newlines_id|].
  split; [apply (splice_frame section readme)|]. split; [apply splice_frame|].
  intros Hfields Hafter. apply count_start_splice.
  - apply status_content_starts.
  - apply status_content_last.
  - apply count_start_status_content; [apply count_start_strftime | done].
  - done.
Qed.

End OneSection.

(** C3, as stated, does not hold: a document with a second heading after
    the section that is replaced, and a service named like the heading,
    each give a new document that holds the start marker twice; and the
    lines around the section of a document whose lines end with a carriage
    return and a line feed are written with a line feed only. *)
Lemma one_section_after_update_counterexample :
  (exists document,
     files (update_readme example_clock no_os_error [] [] (lit "README.md")
              two_headings_world).2
       !! lit "README.md" = Some (text_file document) /\
     Str.count start_marker document = 2) /\
  (exists document,
     files (update_readme example_clock no_os_error [heading_named_service] []
              (lit "README.md") notes_world).2
       !! lit "README.md" = Some (text_file document) /\
     Str.count start_marker document = 2) /\
  (exists document,
     files (update_readme example_clock no_os_error [] [] (lit "README.md")
              crlf_around_section_world).2
       !! lit "README.md" = Some (text_file document) /\
     Str.startswith (lit "# Notes" ++ [CR; LF]) crlf_around_section = true /\
     Str.startswith (lit "# Notes" ++ [CR; LF]) document = false /\
     Str.contains (lit "Footer" ++ [CR; LF]) crlf_around_section = true /\
     Str.contains (lit "Footer" ++ [CR; LF]) document = false).
Proof. split_and!; eexists; split_and!; by vm_compute. Qed.

Lemma one_section_after_update_witness :
  exists w' document,
    update_readme example_clock no_os_error [alpha_service] [beta_service]
      (lit "README.md") closed_world = (Ok tt, w') /\
    files w' !! lit "README.md" = Some (text_file document) /\
    document =
      (lit "# Notes" ++ [LF])
      ++ status_content (strftime (example_clock 0)) [alpha_service] [beta_service]
      ++ (lit "Footer" ++ [LF]) /\
    Str.count start_marker document = 1.
Proof.
  destruct (one_section_after_update example_clock no_os_error [alpha_service]
              [beta_service] (lit "README.md") closed_world closed_readme eq_refl eq_refl)
    as (w' & document & Hrun & Hfile & _ & _ & Hframe & Hcount).
  exists w', document. split_and!; [exact Hrun | exact Hfile | exact Hframe |].
  apply Hcount; [|reflexivity].
  intros field Hfield. unfold rendered_fields in Hfield.
  rewrite !bind_singleton, elem_of_app, !elem_of_cons in Hfield.
  destruct Hfield as [[-> | [-> | [-> | []%elem_of_nil]]] | [-> | [-> | []%elem_of_nil]]];
    reflexivity.
Defined.

(** ** The end marker in the rendered section *)
Section EndMarkerCount.
Import Str StrFacts.

Local Ltac notin := apply (bool_decide_unpack _); by vm_compute.

Lemma end_marker_ne : end_marker <> [].
Proof. done. Qed.

Lemma count_end_skip (l rest : str) :
  LF ∉ l -> count end_marker (l ++ rest) = count end_marker rest.
Proof. apply (count_skip LF (lit "---" ++ [LF])). Qed.

(** A line feed that two hyphens do not follow does not start the end
    marker. *)
Lemma count_end_LF (rest : str) :
  startswith (lit "--") rest = false ->
  count end_marker (LF :: rest) = count end_marker rest.
Proof.
  intros H. cbn [count].
  replace (startswith end_marker (LF :: rest)) with false; [done|].
  symmetry. apply not_true_is_false. intros Hs%startswith_prefix.
  apply prefix_cons_inv_2 in Hs.
  apply not_true_iff_false in H. apply H, startswith_prefix.
  etrans; [|exact Hs]. by exists (lit "-" ++ [LF]).
Qed.

Local Ltac end_lit := rewrite count_end_skip by (done || notin).
Local Ltac end_LF := rewrite count_end_LF by reflexivity.

Lemma LF_not_digit : LF ∉ lit "0123456789".
Proof. notin. Qed.

Lemma LF_not_in_decimal (n : nat) : LF ∉ decimal n.
Proof. intros H%decimal_chars. by apply LF_not_digit. Qed.

Lemma LF_not_in_strftime (d : datetime) : LF ∉ strftime d.
Proof. intros H%strftime_chars. revert H. notin. Qed.

Lemma online_item_no_dashes (service : dict) (rest : str) :
  startswith (lit "--") (online_item service ++ rest) = false.
Proof. by rewrite online_item_eq. Qed.

Lemma offline_item_no_dashes (service : dict) (rest : str) :
  startswith (lit "--") (offline_item service ++ rest) = false.
Proof. by rewrite offline_item_eq. Qed.

Lemma count_end_online_item (service : dict) (rest : str) :
  LF ∉ get service (lit "name") (lit "Unknown") ->
  LF ∉ get service (lit "url") [] ->
  LF ∉ get service (lit "description") [] ->
  startswith (lit "--") rest = false ->
  count end_marker (online_item service ++ rest) = count end_marker rest.
Proof.
  intros Hname Hurl Hdesc Hrest. rewrite online_item_eq, <- !app_assoc.
  end_lit. end_lit. end_lit. cbn [app]. end_LF. end_lit. end_lit. end_lit.
  case_bool_decide.
  - rewrite <- !app_assoc. cbn [app]. end_LF. end_lit. end_lit. cbn [app].
    end_LF. by rewrite count_end_LF.
  - cbn [app]. end_LF. by rewrite count_end_LF.
Qed.

Lemma count_end_offline_item (service : dict) (rest : str) :
  LF ∉ get service (lit "name") (lit "Unknown") ->
  LF ∉ get service (lit "url") [] ->
  startswith (lit "--") rest = false ->
  count end_marker (offline_item service ++ rest) = count end_marker rest.
Proof.
  intros Hname Hurl Hrest. rewrite offline_item_eq, <- !app_assoc.
  end_lit. end_lit. end_lit. end_lit. end_lit. cbn [app]. by rewrite count_end_LF.
Qed.

Lemma count_end_status_content (timestamp : str) (online offline : list dict) :
  LF ∉ timestamp ->
  (forall field, field ∈ rendered_fields online offline -> LF ∉ field) ->
  count end_marker (status_content timestamp online offline) = 1.
Proof.
  intros Hts Hfields. unfold rendered_fields in Hfields.
  pose proof (LF_not_in_decimal (length online)) as Hn1.
  pose proof (LF_not_in_decimal (length offline)) as Hn2.
  assert (forall rest, startswith (lit "--") rest = false ->
            startswith (lit "--") (online_list online ++ rest) = false /\
            count end_marker (online_list online ++ rest) = count end_marker rest) as Hon.
  { intros rest Hrest. unfold online_list. case_bool_decide as Hne.
    - assert (forall s, s ∈ online ->
        (LF ∉ get s (lit "name") (lit "Unknown")) /\ (LF ∉ get s (lit "url") []) /\
        (LF ∉ get s (lit "description") [])) as Hs.
      { intros s Hs. split_and!; apply Hfields, elem_of_app; left;
          apply list_elem_of_bind; exists s; (split; [|done]); rewrite !elem_of_cons; auto. }
      clear Hfields Hn1. induction online as [|s l IH]; [done|].
      rewrite bind_cons, <- app_assoc.
      split; [apply online_item_no_dashes|].
      destruct (Hs s) as (? & ? & ?); [left|].
      destruct l as [|s' l]; [by apply count_end_online_item|].
      destruct IH as [IH1 IH2]; [done | intros s'' Hs''; apply Hs; by right |].
      by rewrite count_end_online_item.
    - rewrite <- app_assoc. split; [done|]. end_lit. cbn [app]. end_LF.
      by rewrite count_end_LF. }
  assert (startswith (lit "--") (offline_list offline ++ end_marker) = false /\
          count end_marker (offline_list offline ++ end_marker) = 1) as [Hoff1 Hoff2].
  { unfold offline_list. case_bool_decide as Hne.
    - assert (forall s, s ∈ offline ->
        (LF ∉ get s (lit "name") (lit "Unknown")) /\ (LF ∉ get s (lit "url") [])) as Hs.
      { intros s Hs. split_and!; apply Hfields, elem_of_app; right;
          apply list_elem_of_bind; exists s; (split; [|done]); rewrite !elem_of_cons; auto. }
      clear Hfields Hn2. induction offline as [|s l IH]; [done|].
      rewrite bind_cons, <- app_assoc.
      split; [apply offline_item_no_dashes|].
      destruct (Hs s) as (? & ?); [left|].
      destruct l as [|s' l]; [by rewrite count_end_offline_item|].
      destruct IH as [IH1 IH2]; [done | intros s'' Hs''; apply Hs; by right |].
      by rewrite count_end_offline_item.
    - rewrite <- app_assoc. split; [done|]. end_lit. cbn [app]. by end_LF. }
  rewrite status_content_eq.
  end_lit. cbn [app]. end_LF. end_LF. end_lit. end_lit. end_lit. cbn [app]. end_LF. end_LF.
  end_lit. end_lit. end_lit. cbn [app].
  assert (startswith (lit "--")
            (lit "### ❌ Offline Services (" ++ decimal (length offline) ++ lit ")"
             ++ LF :: LF :: offline_list offline ++ end_marker) = false) as Hhdr by done.
  destruct (Hon _ Hhdr) as [Hon1 Hon2].
  end_LF. rewrite count_end_LF by done. rewrite Hon2.
  end_lit. end_lit. end_lit. cbn [app]. end_LF. by rewrite count_end_LF.
Qed.

End EndMarkerCount.

(** ** Updating twice *)
Section UpdateTwice.
Import Str StrFacts.

Lemma count_first_occ (sub s : str) (n : nat) :
  sub <> [] -> first_occ sub s = Some n ->
  count sub s = 1 + count sub (drop (S n) s).
Proof.
  intros Hne. revert n. induction s as [|c s IH]; intros n; cbn [first_occ count].
  - rewrite startswith_nil_r, bool_decide_eq_false_2; done.
  - destruct (startswith sub (c :: s)).
    + intros [= <-]. reflexivity.
    + intros (n' & Hn' & ->)%fmap_Some. by rewrite (IH n').
Qed.

Lemma count_occurrence (sub s : str) (j : nat) :
  sub <> [] -> startswith sub (drop j s) = true -> 1 <= count sub s.
Proof.
  intros Hne Hj. destruct (first_occ sub s) as [n|] eqn:Hf.
  - rewrite (count_first_occ _ _ n) by done. lia.
  - destruct (decide (j <= length s)) as [Hle|Hgt].
    + rewrite first_occ_None in Hf. rewrite Hf in Hj; done.
    + rewrite drop_ge, startswith_nil_r, bool_decide_eq_true in Hj by lia. done.
Qed.

(** A string that ends with its only occurrence of [sub]. *)
Lemma first_occ_at_end (sub a : str) :
  sub <> [] -> count sub (a ++ sub) = 1 ->
  first_occ sub (a ++ sub) = Some (length a).
Proof.
  intros Hne Hone.
  assert (startswith sub (drop (length a) (a ++ sub)) = true) as Hend.
  { rewrite drop_app_length. rewrite <- (app_nil_r sub) at 2. apply startswith_app. }
  destruct (first_occ sub (a ++ sub)) as [n|] eqn:Hf.
  - pose proof Hf as (Hn & Hs & Hmin)%first_occ_Some.
    destruct (decide (n < length a)) as [Hlt|Hge].
    + rewrite (count_first_occ _ _ n) in Hone by done.
      assert (1 <= count sub (drop (S n) (a ++ sub))); [|lia].
      apply (count_occurrence _ _ (length a - S n)); [done|].
      rewrite drop_drop. by replace (S n + (length a - S n)) with (length a) by lia.
    + f_equal. destruct (decide (length a < n)) as [Hlt|?]; [|lia].
      rewrite (Hmin _ Hlt) in Hend. done.
  - rewrite first_occ_None in Hf. rewrite Hf in Hend; [done|].
    rewrite length_app. lia.
Qed.

Lemma first_occ_app_found (sub a b : str) (k : nat) :
  first_occ sub a = Some k -> first_occ sub (a ++ b) = Some k.
Proof.
  intros (Hk & Hs & Hmin)%first_occ_Some. apply first_occ_Some.
  apply startswith_prefix in Hs as Hpre. destruct Hpre as [r Hr].
  assert (k + length sub <= length a) as Hfit.
  { apply (f_equal length) in Hr. rewrite length_drop, length_app in Hr. lia. }
  split_and!.
  - rewrite length_app. lia.
  - rewrite drop_app_le by done. apply startswith_prefix.
    apply startswith_prefix in Hs. by apply prefix_app_r.
  - intros j Hj. rewrite drop_app_le by lia.
    rewrite startswith_app_long; [by apply Hmin|]. rewrite length_drop. lia.
Qed.

Lemma first_occ_exists (sub x y : str) :
  exists k, first_occ sub (x ++ sub ++ y) = Some k /\ k <= length x.
Proof.
  assert (startswith sub (drop (length x) (x ++ sub ++ y)) = true) as Hend.
  { rewrite drop_app_length. apply startswith_app. }
  destruct (first_occ sub (x ++ sub ++ y)) as [n|] eqn:Hf.
  - exists n. split; [done|]. apply first_occ_Some in Hf as (_ & _ & Hmin).
    destruct (decide (length x < n)) as [Hlt|?]; [|lia].
    rewrite (Hmin _ Hlt) in Hend. done.
  - rewrite first_occ_None in Hf. rewrite Hf in Hend; [done|].
    rewrite length_app. lia.
Qed.

Lemma after_section_eq (document : str) (n k : nat) :
  first_occ start_marker document = Some n ->
  first_occ end_marker (drop n document) = Some k ->
  after_section document = drop (n + k + length end_marker) document.
Proof.
  intros Hs He. unfold after_section.
  rewrite contains_first_occ, Hs, bool_decide_eq_true_2 by eauto.
  assert (n <= length document) by (by apply first_occ_Some in Hs as (? & _)).
  rewrite find_0, Hs, find_nat, He by done. cbv zeta.
  rewrite bool_decide_eq_true_2 by lia. unfold slice_from. f_equal. lia.
Qed.

Lemma count_start_drop_closed (s rest : str) (j : nat) :
  last s = Some LF ->
  count start_marker (drop j s) = 0 ->
  count start_marker (drop j s ++ rest) = count start_marker rest.
Proof.
  intros [s' ->]%last_Some Hzero.
  destruct (decide (j <= length s')) as [Hle|Hgt].
  - rewrite drop_app_le in Hzero |- * by done.
    rewrite <- app_assoc. cbn [app].
    rewrite count_barrier in Hzero |- * by (done || apply LF_not_in_start_marker).
    lia.
  - rewrite drop_ge; [done|]. rewrite length_app. simpl. lia.
Qed.

(** The update of a document that holds the section [section1] between
    [P] and [A], with its first start marker at the head of [section1]:
    the span replaced ends with the first end marker of [section1]. *)
Lemma splice_over (section1 section2 P A : str) :
  (exists body, section1 = body ++ end_marker) ->
  first_occ start_marker (P ++ section1 ++ A) = Some (length P) ->
  exists k,
    (exists body, first_occ end_marker section1 = Some k /\ k <= length body /\
                  section1 = body ++ end_marker) /\
    splice section2 (P ++ section1 ++ A) =
      P ++ section2 ++ drop (k + length end_marker) section1 ++ A.
Proof.
  intros [body Hbody] Hfirst.
  destruct (first_occ_exists end_marker body []) as (k & Hk & Hkle).
  rewrite app_nil_r, <- Hbody in Hk.
  exists k. split; [by exists body|].
  assert (k + length end_marker <= length section1) as Hfit
    by (rewrite Hbody, length_app; lia).
  assert (first_occ end_marker (drop (length P) (P ++ section1 ++ A)) = Some k) as He
    by (rewrite drop_app_length; by apply first_occ_app_found).
  rewrite (splice_replace _ _ _ _ Hfirst He).
  rewrite take_app_length. f_equal. f_equal.
  rewrite <- Nat.add_assoc, <- drop_drop, drop_app_length.
  by rewrite drop_app_le.
Qed.

(** The text [splice] keeps is made of characters of the document. *)
Lemma before_after_section_chars (readme : str) (c : ascii) :
  c ∉ readme -> (c ∉ before_section readme) /\ (c ∉ after_section readme).
Proof.
  intros Hc. destruct (splice_frame [] readme) as [[span Hspan] _].
  rewrite Hspan in Hc. rewrite !not_elem_of_app in Hc. by destruct Hc as (? & _ & ?).
Qed.

(** A section that is read back still starts with the start marker, ends
    with the end marker and holds the start marker as often. *)
Lemma section_read_back (section : str) :
  (exists rest, section = start_marker ++ rest) ->
  (exists body, section = body ++ end_marker) ->
  (exists rest, universal_newlines section = start_marker ++ rest) /\
  (exists body, universal_newlines section = body ++ end_marker) /\
  count start_marker (universal_newlines section) = count start_marker section.
Proof.
  intros [rest ->] [body Hbody]. split_and!.
  - eexists. apply universal_newlines_app_id, CR_not_in_start_marker.
  - rewrite Hbody.
    destruct (universal_newlines_app_LF body (lit "---" ++ [LF])) as [body' Hread].
    exists body'. exact Hread.
  - apply count_universal_newlines; [done | apply CR_not_in_start_marker
                                     | apply LF_not_in_start_marker].
Qed.

End UpdateTwice.

Section Idempotence.
Variable clock : nat -> datetime.
Variable os_error : os_step -> str -> option refusal.
Import Str StrFacts.

(** C4 (amended): when no rendered name, URL or description holds the start
    marker and the start marker does not occur after the span of the
    previous section, the document after two updates in a row holds the
    start marker exactly once. The second update replaces the section the
    first one wrote, so that the document is the text read around the
    previous section with the section of the second update in its place,
    exactly when the first section, read back with its carriage returns as
    line feeds, holds the end marker at its end only. *)
Theorem update_twice online offline readme_file w stored :
  files w !! readme_file = Some (text_file stored) ->
  os_error WriteText readme_file = None ->
  (forall field, field ∈ rendered_fields online offline ->
                 contains start_marker field = false) ->
  count start_marker (after_section (universal_newlines stored)) = 0 ->
  exists w1 w2 document,
    let readme := universal_newlines stored in
    let section1 := status_content (strftime (clock (clock_reads w))) online offline in
    let section2 := status_content (strftime (clock (S (clock_reads w)))) online offline in
    update_readme clock os_error online offline readme_file w = (Ok tt, w1) /\
    update_readme clock os_error online offline readme_file w1 = (Ok tt, w2) /\
    files w2 !! readme_file = Some (text_file document) /\
    count start_marker document = 1 /\
    (document =
       before_section readme
       ++ (if contains start_marker readme then [] else [LF])
       ++ section2 ++ after_section readme
     <-> count end_marker (universal_newlines section1) = 1).
Proof.
  intros Hfile Hwrite Hfields Hafter.
  set (readme := universal_newlines stored) in *.
  set (section1 := status_content (strftime (clock (clock_reads w))) online offline).
  set (section2 := status_content (strftime (clock (S (clock_reads w)))) online offline).
  set (w1 := World (<[readme_file := text_file (splice section1 readme)]> (files w))
                   (stdout w) (requests w) (S (clock_reads w))).
  set (document := splice section2 (universal_newlines (splice section1 readme))).
  exists w1, (World (<[readme_file := text_file document]> (files w1)) (stdout w1)
                    (requests w1) (S (clock_reads w1))), document.
  cbv zeta. fold readme section1 section2.
  split; [by apply update_readme_text|].
  split; [apply update_readme_text; [apply lookup_insert_eq | done]|].
  split; [cbn [files]; apply lookup_insert_eq|].
  assert (count start_marker section1 = 1) as Hone1
    by (apply count_start_status_content; [apply count_start_strftime | done]).
  assert (count start_marker section2 = 1) as Hone2
    by (apply count_start_status_content; [apply count_start_strftime | done]).
  pose proof (status_content_starts (strftime (clock (clock_reads w))) online offline)
    as Hstart1.
  pose proof (status_content_ends (strftime (clock (clock_reads w))) online offline)
    as Hend1.
  pose proof (status_content_last (strftime (clock (clock_reads w))) online offline)
    as Hlast1.
  pose proof (status_content_starts (strftime (clock (S (clock_reads w)))) online offline)
    as Hstart2.
  pose proof (status_content_last (strftime (clock (S (clock_reads w)))) online offline)
    as Hlast2.
  fold section1 in Hstart1, Hend1, Hlast1. fold section2 in Hstart2, Hlast2.
  pose proof (splice_first_occ section1 readme Hstart1) as Hfirst.
  destruct (splice_frame section1 readme) as [_ Hframe].
  destruct (before_after_section_chars readme CR (universal_newlines_no_CR stored))
    as [HbeforeCR HafterCR].
  set (P := before_section readme ++ (if contains start_marker readme then [] else [LF]))
    in *.
  set (A := after_section readme) in *.
  assert (CR ∉ P) as HPCR.
  { unfold P. apply not_elem_of_app. split; [done|].
    destruct (contains start_marker readme); [apply not_elem_of_nil|].
    by apply (bool_decide_unpack _). }
  assert (splice section1 readme = P ++ section1 ++ A) as HD
    by (rewrite Hframe; unfold P; by rewrite <- app_assoc).
  destruct (section_read_back section1 Hstart1 Hend1) as (Hstart & Hend & Hcount).
  set (read1 := universal_newlines section1) in *.
  assert (last read1 = Some LF) as Hlast.
  { destruct Hend as [body ->]. change end_marker with ((LF :: lit "---") ++ [LF]).
    by rewrite app_assoc, last_snoc. }
  assert (universal_newlines (splice section1 readme) = P ++ read1 ++ A) as HR.
  { rewrite HD, universal_newlines_app_id by done.
    rewrite universal_newlines_app by (by rewrite Hlast1).
    by rewrite (universal_newlines_id A). }
  assert (first_occ start_marker (P ++ read1 ++ A) = Some (length P)) as Hfirst1.
  { destruct Hstart1 as [r1 Hr1]. destruct Hstart as [r Hr].
    rewrite HD, Hr1, <- !app_assoc in Hfirst. rewrite Hr, <- !app_assoc.
    exact (first_occ_before_first _ _ _ _ Hfirst). }
  destruct (splice_over read1 section2 P A Hend Hfirst1)
    as (k & (body & Hk & Hkle & Hbody) & Htwice).
  assert (document = P ++ section2 ++ drop (k + length end_marker) read1 ++ A) as Hdoc
    by (unfold document; by rewrite HR).
  split.
  - rewrite Hdoc.
    destruct Hstart as [r1 Hr1]. destruct Hstart2 as [r2 Hr2].
    rewrite Hr1, <- !app_assoc in Hfirst1.
    rewrite Hr2 at 1. rewrite <- !app_assoc.
    rewrite (count_before_first _ _ _ _ Hfirst1).
    rewrite app_assoc, <- Hr2.
    rewrite (count_app_closed _ section2 _ LF)
      by (done || apply LF_not_in_start_marker).
    rewrite count_start_drop_closed, Hone2; [fold A in Hafter; by rewrite Hafter | done |].
    pose proof Hone1 as Hhead. rewrite <- Hcount in Hhead.
    rewrite Hr1, count_start_head, <- Hr1 in Hhead.
    pose proof (count_drop_le start_marker (drop 1 read1) (k + length end_marker - 1))
      as Hle.
    rewrite drop_drop in Hle.
    replace (1 + (k + length end_marker - 1)) with (k + length end_marker) in Hle
      by (simpl; lia).
    lia.
  - rewrite Hdoc. unfold P. rewrite <- !app_assoc. split.
    + intros Heq. do 2 apply app_inv_head in Heq.
      rewrite app_assoc in Heq. apply app_inv_tail in Heq.
      apply (f_equal length) in Heq. rewrite length_app, length_drop in Heq.
      assert (k = length body) as ->.
      { apply (f_equal length) in Hbody. rewrite length_app in Hbody.
        change (length end_marker) with 5 in *. lia. }
      rewrite (count_first_occ _ _ _ end_marker_ne Hk).
      rewrite Hbody. replace (S (length body)) with (length body + 1) by lia.
      by rewrite <- drop_drop, drop_app_length.
    + intros Hone. do 3 f_equal.
      rewrite Hbody in Hone, Hk.
      rewrite first_occ_at_end in Hk by done. injection Hk as <-.
      by rewrite Hbody, <- length_app, drop_all.
Qed.

End Idempotence.

(** C4, as stated, does not hold: two updates of a document with a second
    heading after the section leave the start marker twice; and after two
    updates with a service whose description ends in a line of three
    hyphens, be that line opened by a line feed or by a carriage return,
    the second update has kept the end of the section the first one wrote,
    so that the heading of the offline list occurs twice. *)
Lemma update_twice_counterexample :
  (exists document,
     files (update_readme ticking_clock no_os_error [] [] (lit "README.md")
              (update_readme ticking_clock no_os_error [] [] (lit "README.md")
                 two_headings_world).2).2
       !! lit "README.md" = Some (text_file document) /\
     Str.count start_marker document = 2) /\
  (exists document,
     files (update_readme ticking_clock no_os_error [ruled_service] [] (lit "README.md")
              (update_readme ticking_clock no_os_error [ruled_service] []
                 (lit "README.md") notes_world).2).2
       !! lit "README.md" = Some (text_file document) /\
     Str.count (lit "### ❌ Offline Services (0)") document = 2) /\
  (exists document,
     files (update_readme ticking_clock no_os_error [cr_ruled_service] []
              (lit "README.md")
              (update_readme ticking_clock no_os_error [cr_ruled_service] []
                 (lit "README.md") notes_world).2).2
       !! lit "README.md" = Some (text_file document) /\
     Str.count (lit "### ❌ Offline Services (0)") document = 2).
Proof. split_and!; eexists; split; by vm_compute. Qed.

Lemma update_twice_witness :
  exists w1 w2 document,
    update_readme ticking_clock no_os_error [alpha_service] [beta_service]
      (lit "README.md") closed_world = (Ok tt, w1) /\
    update_readme ticking_clock no_os_error [alpha_service] [beta_service]
      (lit "README.md") w1 = (Ok tt, w2) /\
    files w2 !! lit "README.md" = Some (text_file document) /\
    Str.count start_marker document = 1 /\
    document =
      (lit "# Notes" ++ [LF])
      ++ status_content (strftime (ticking_clock 1)) [alpha_service] [beta_service]
      ++ (lit "Footer" ++ [LF]).
Proof.
  destruct (update_twice ticking_clock no_os_error [alpha_service] [beta_service]
              (lit "README.md") closed_world closed_readme eq_refl eq_refl)
    as (w1 & w2 & document & H1 & H2 & H3 & H4 & H5).
  - intros field Hfield. unfold rendered_fields in Hfield.
    rewrite !bind_singleton, elem_of_app, !elem_of_cons in Hfield.
    destruct Hfield
      as [[-> | [-> | [-> | []%elem_of_nil]]] | [-> | [-> | []%elem_of_nil]]];
      reflexivity.
  - reflexivity.
  - exists w1, w2, document. split_and!; [exact H1 | exact H2 | exact H3 | exact H4 |].
    apply H5. reflexivity.
Defined.

(** ** Sections without line endings in their fields *)
Section PlainFields.
Import Str StrFacts.

Local Ltac notin := apply (bool_decide_unpack _); by vm_compute.

(** The rendered section holds no carriage return when no name, URL or
    description does. *)
Lemma CR_not_in_status_content (d : datetime) (online offline : list dict) :
  (forall field, field ∈ rendered_fields online offline -> CR ∉ field) ->
  CR ∉ status_content (strftime d) online offline.
Proof.
  intros Hfields. unfold rendered_fields in Hfields.
  assert (CR ∉ strftime d) as Hts.
  { intros H%strftime_chars. revert H. notin. }
  assert (forall n, CR ∉ decimal n) as Hdec.
  { intros n H%decimal_chars. revert H. notin. }
  assert (CR ∉ online_list online) as Hon.
  { unfold online_list. case_bool_decide; [|notin].
    intros (service & Hc & Hin)%list_elem_of_bind.
    assert (forall field,
              field ∈ [get service (lit "name") (lit "Unknown"); get service (lit "url") [];
                       get service (lit "description") []] -> CR ∉ field) as Hservice.
    { intros field Hfield. apply Hfields, elem_of_app. left.
      apply list_elem_of_bind. by exists service. }
    assert (CR ∉ online_item service) as Hitem; [|done].
    rewrite online_item_eq, !not_elem_of_app. split_and!; try notin.
    - apply Hservice. rewrite !elem_of_cons. auto.
    - apply Hservice. rewrite !elem_of_cons. auto.
    - case_bool_decide; [|apply not_elem_of_nil].
      rewrite !not_elem_of_app. split_and!; try notin.
      apply Hservice. rewrite !elem_of_cons. auto. }
  assert (CR ∉ offline_list offline) as Hoff.
  { unfold offline_list. case_bool_decide; [|notin].
    intros (service & Hc & Hin)%list_elem_of_bind.
    assert (forall field,
              field ∈ [get service (lit "name") (lit "Unknown"); get service (lit "url") []]
              -> CR ∉ field) as Hservice.
    { intros field Hfield. apply Hfields, elem_of_app. right.
      apply list_elem_of_bind. by exists service. }
    assert (CR ∉ offline_item service) as Hitem; [|done].
    rewrite offline_item_eq, !not_elem_of_app. split_and!; try notin.
    - apply Hservice. rewrite !elem_of_cons. auto.
    - apply Hservice. rewrite !elem_of_cons. auto. }
  rewrite status_content_eq. rewrite !not_elem_of_app. split_and!; try done; notin.
Qed.

(** A section whose names, URLs and descriptions hold no line ending is
    read back as it was written, and holds the end marker at its end
    only. *)
Lemma plain_section_read_back (d : datetime) (online offline : list dict) :
  (forall field, field ∈ rendered_fields online offline -> (LF ∉ field) /\ (CR ∉ field)) ->
  universal_newlines (status_content (strftime d) online offline) =
    status_content (strftime d) online offline /\
  count end_marker (universal_newlines (status_content (strftime d) online offline)) = 1.
Proof.
  intros Hfields.
  assert (universal_newlines (status_content (strftime d) online offline) =
            status_content (strftime d) online offline) as Hid.
  { apply universal_newlines_id, CR_not_in_status_content.
    intros field Hfield. by apply Hfields. }
  split; [done|]. rewrite Hid.
  apply count_end_status_content; [apply LF_not_in_strftime|].
  intros field Hfield. by apply Hfields.
Qed.

End PlainFields.

(** ** The properties at the example inputs *)

(** The scenario of the specification: Alpha answers 200 and Beta times
    out. *)
Example alpha_online_beta_offline :
  probe_outcomes example_network 0 [alpha_service; beta_service] = [true; false] /\
  (check_services example_network [alpha_service; beta_service] [] [] empty_world).1
    = Ok ([alpha_service], [beta_service]).
Proof. split; by vm_compute. Qed.

Lemma partition_of_services_witness :
  exists online offline w',
    let ups := probe_outcomes example_network 0 [alpha_service; beta_service] in
    check_services example_network [alpha_service; beta_service] [] [] empty_world
      = (Ok (online, offline), w') /\
    length ups = length [alpha_service; beta_service] /\
    online = select ups [alpha_service; beta_service] /\
    offline = select (negb <$> ups) [alpha_service; beta_service] /\
    length online + length offline = length [alpha_service; beta_service] /\
    online ++ offline ≡ₚ [alpha_service; beta_service] /\
    online `sublist_of` [alpha_service; beta_service] /\
    offline `sublist_of` [alpha_service; beta_service].
Proof.
  apply (partition_of_services example_network [alpha_service; beta_service] empty_world).
  intros n url timeout e. unfold example_network.
  destruct (bool_decide (url = lit "http://alpha.onion")); [discriminate|].
  intros H. injection H as <-. reflexivity.
Defined.

Lemma prober_classification_witness :
  (check_onion_service example_network (lit "alpha.onion") 30 empty_world).1 = Ok true /\
  (check_onion_service example_network (lit "beta.onion") 30 empty_world).1 = Ok false.
Proof.
  split.
  - destruct (prober_classification example_network (lit "alpha.onion") 30 empty_world)
      as [Hresponse _].
    destruct (Hresponse (Response 200) eq_refl) as (_ & Honline & _).
    apply Honline. simpl. split; discriminate.
  - destruct (prober_classification example_network (lit "beta.onion") 30 empty_world)
      as [_ Hfailure].
    destruct (Hfailure ReadTimeout eq_refl eq_refl) as [Hfalse _]. exact Hfalse.
Defined.

Lemma missing_input_file_witness :
  read_services_csv no_rows (lit "services.csv") empty_world
    = (Raise FileNotFoundError, empty_world) /\
  exists w',
    main example_network example_clock no_rows no_os_error empty_world = (Ok tt, w') /\
    requests w' = requests empty_world /\
    files w' = files empty_world /\
    clock_reads w' = clock_reads empty_world /\
    stdout w' =
      stdout empty_world ++ [lit "🧅 Starting Tor hidden service check...";
                             lit "❌ services.csv not found!"].
Proof.
  apply (missing_input_file example_network example_clock no_rows no_os_error empty_world).
  reflexivity.
Defined.

Lemma existing_section_replaced_witness :
  exists before body after w',
    universal_newlines closed_readme =
      before ++ (start_marker ++ body ++ end_marker) ++ after /\
    Str.find start_marker (universal_newlines closed_readme) 0 = Z.of_nat (length before) /\
    Str.find end_marker (universal_newlines closed_readme) (Z.of_nat (length before)) =
      Z.of_nat (length before + length start_marker + length body) /\
    update_readme example_clock no_os_error [alpha_service] [beta_service]
      (lit "README.md") closed_world = (Ok tt, w') /\
    files w' !! lit "README.md" =
      Some (text_file
              (before
               ++ status_content (strftime (example_clock (clock_reads closed_world)))
                    [alpha_service] [beta_service]
               ++ after)) /\
    (CR ∉ closed_readme ->
     closed_readme = before ++ (start_marker ++ body ++ end_marker) ++ after).
Proof.
  apply (existing_section_replaced example_clock no_os_error [alpha_service]
           [beta_service] (lit "README.md") closed_world closed_readme).
  - reflexivity.
  - reflexivity.
  - reflexivity.
  - vm_compute. discriminate.
Defined.

Lemma unterminated_section_truncated_witness :
  exists before rest w',
    universal_newlines open_readme = before ++ start_marker ++ rest /\
    Str.find start_marker (universal_newlines open_readme) 0 = Z.of_nat (length before) /\
    update_readme example_clock no_os_error [alpha_service] [beta_service]
      (lit "README.md") open_world = (Ok tt, w') /\
    files w' !! lit "README.md" =
      Some (text_file
              (before
               ++ status_content (strftime (example_clock (clock_reads open_world)))
                    [alpha_service] [beta_service])) /\
    (CR ∉ open_readme -> open_readme = before ++ start_marker ++ rest).
Proof.
  apply (unterminated_section_truncated example_clock no_os_error [alpha_service]
           [beta_service] (lit "README.md") open_world open_readme).
  - reflexivity.
  - reflexivity.
  - reflexivity.
  - reflexivity.
Defined.

(** * Further properties of the program *)

(** ** The updater and the prober *)
Section UpdaterAndProber.
Variable network : nat -> str -> Z -> result response.
Variable clock : nat -> datetime.
Variable os_error : os_step -> str -> option refusal.
Import Str StrFacts.

(** A document that holds, after [P], a section that starts with the
    first start marker and ends with the end marker, is one whose section
    is closed. *)
Lemma closed_section_found (P section A : str) :
  (exists body, section = body ++ end_marker) ->
  first_occ start_marker (P ++ section ++ A) = Some (length P) ->
  contains start_marker (P ++ section ++ A) = true /\
  find end_marker (P ++ section ++ A) (find start_marker (P ++ section ++ A) 0)
    <> (-1)%Z.
Proof.
  intros [body ->] Hfirst.
  split; [rewrite contains_first_occ, Hfirst; by apply bool_decide_eq_true_2|].
  rewrite find_0, Hfirst.
  rewrite find_nat by (rewrite length_app; lia).
  rewrite drop_app_length, <- app_assoc.
  destruct (first_occ_exists end_marker body A) as (k & -> & _).
  lia.
Qed.

(** The document [splice] makes of a text without carriage returns, as it
    is written and as it is read back. *)
Lemma splice_closed_section (section readme : str) :
  (exists rest, section = start_marker ++ rest) ->
  (exists body, section = body ++ end_marker) ->
  CR ∉ readme ->
  let document := splice section readme in
  (contains start_marker document = true /\
   find end_marker document (find start_marker document 0) <> (-1)%Z) /\
  (contains start_marker (universal_newlines document) = true /\
   find end_marker (universal_newlines document)
        (find start_marker (universal_newlines document) 0) <> (-1)%Z).
Proof.
  intros Hstart Hend HCR. cbv zeta.
  pose proof (splice_first_occ section readme Hstart) as Hfirst.
  destruct (splice_frame section readme) as [_ Hframe].
  destruct (before_after_section_chars readme CR HCR) as [HbeforeCR HafterCR].
  set (P := before_section readme ++ (if contains start_marker readme then [] else [LF]))
    in *.
  set (A := after_section readme) in *.
  assert (CR ∉ P) as HPCR.
  { unfold P. apply not_elem_of_app. split; [done|].
    destruct (contains start_marker readme); [apply not_elem_of_nil|].
    by apply (bool_decide_unpack _). }
  assert (splice section readme = P ++ section ++ A) as HD
    by (rewrite Hframe; unfold P; by rewrite <- app_assoc).
  rewrite HD in Hfirst |- *.
  split; [by apply closed_section_found|].
  destruct (section_read_back section Hstart Hend) as (Hstart' & Hend' & _).
  assert (last section = Some LF) as Hlast.
  { destruct Hend as [body ->]. change end_marker with ((LF :: lit "---") ++ [LF]).
    by rewrite app_assoc, last_snoc. }
  rewrite universal_newlines_app_id by done.
  rewrite universal_newlines_app by (by rewrite Hlast).
  rewrite (universal_newlines_id A) by done.
  apply closed_section_found; [done|].
  destruct Hstart as [r Hr]. destruct Hstart' as [r' Hr'].
  rewrite Hr, <- !app_assoc in Hfirst. rewrite Hr', <- !app_assoc.
  exact (first_occ_before_first _ _ _ _ Hfirst).
Qed.

(** X4: when nothing stands at the path of the document and the file can
    be created and written, [update_readme] creates it: the title of a
    fresh document, a blank line, one line feed and the rendered section.
    When the operating system refuses to create the file (so for a path in
    a directory that does not exist), [update_readme] raises the exception
    of the refusal, which no handler of it catches, and no file is
    made. *)
Theorem missing_readme_created online offline readme_file w :
  files w !! readme_file = None ->
  (os_error CreateFile readme_file = None ->
   os_error WriteText readme_file = None ->
   exists w',
     update_readme clock os_error online offline readme_file w = (Ok tt, w') /\
     files w' !! readme_file =
       Some (text_file
               (lit "# Tor Hidden Services Monitor" ++ [LF; LF] ++ [LF]
                ++ status_content (strftime (clock (clock_reads w))) online offline))) /\
  (forall r,
     os_error CreateFile readme_file = Some r ->
     exists w',
       update_readme clock os_error online offline readme_file w = (Raise (raised r), w') /\
       files w' = files w).
Proof.
  intros Hfile. split.
  - intros Hcreate Hwrite. eexists. rewrite update_readme_run. cbv zeta.
    rewrite Hfile, Hcreate, Hwrite. split; [reflexivity|].
    cbn [files]. rewrite lookup_insert_eq.
    rewrite splice_absent by done. unfold fresh_readme. by rewrite <- !app_assoc.
  - intros r Hcreate. eexists. rewrite update_readme_run. cbv zeta.
    rewrite Hfile, Hcreate. done.
Qed.

(** X6: the document [update_readme] writes, whenever it returns, holds
    the start marker and, at or after the first one, the end marker, and so
    does the text read back from it: the next update finds a closed section
    to replace, and neither appends nor cuts the document at the start
    marker. *)
Theorem updated_document_has_closed_section online offline readme_file w w' :
  update_readme clock os_error online offline readme_file w = (Ok tt, w') ->
  exists document readable,
    files w' !! readme_file = Some (File (Some document) readable true) /\
    (contains start_marker document = true /\
     find end_marker document (find start_marker document 0) <> (-1)%Z) /\
    (contains start_marker (universal_newlines document) = true /\
     find end_marker (universal_newlines document)
          (find start_marker (universal_newlines document) 0) <> (-1)%Z).
Proof.
  rewrite update_readme_run. cbv zeta.
  pose proof (status_content_starts (strftime (clock (clock_reads w))) online offline)
    as Hstart.
  pose proof (status_content_ends (strftime (clock (clock_reads w))) online offline)
    as Hend.
  set (section := status_content _ _ _) in *.
  assert (forall readme readable,
            CR ∉ readme ->
            (Ok tt,
             World (<[readme_file := File (Some (splice section readme)) readable true]>
                      (files w))
                   (stdout w) (requests w) (S (clock_reads w))) = (Ok tt, w') ->
            exists document readable,
              files w' !! readme_file = Some (File (Some document) readable true) /\
              (contains start_marker document = true /\
               find end_marker document (find start_marker document 0) <> (-1)%Z) /\
              (contains start_marker (universal_newlines document) = true /\
               find end_marker (universal_newlines document)
                    (find start_marker (universal_newlines document) 0) <> (-1)%Z))
    as Hwritten.
  { intros readme readable HCR [= <-]. exists (splice section readme), readable.
    cbn [files]. rewrite lookup_insert_eq. split; [done|].
    by apply splice_closed_section. }
  destruct (files w !! readme_file) as [[|[text|] [|] [|]]|]; cbn [negb]; try done.
  - destruct (os_error WriteText readme_file); [done|].
    apply Hwritten, universal_newlines_no_CR.
  - destruct (os_error CreateFile readme_file); [done|].
    destruct (os_error WriteText readme_file); [done|].
    apply Hwritten. by apply (bool_decide_unpack _).
Qed.

(** X7: the prober issues exactly one request, for the rewritten URL and
    the timeout it is given, and changes no file. Every exception that
    derives from [Exception], and not only a failure of the transport,
    makes it print the rewritten URL with the class of the exception and
    return false; any other exception is raised to the caller and nothing
    is printed. *)
Theorem prober_catches_every_Exception url timeout w :
  let run := check_onion_service network url timeout w in
  requests run.2 = requests w ++ [(ensure_scheme url, timeout)] /\
  files run.2 = files w /\
  clock_reads run.2 = clock_reads w /\
  forall e,
    network (length (requests w)) (ensure_scheme url) timeout = Raise e ->
    if is_Exception e then
      run.1 = Ok false /\
      stdout run.2 =
        stdout w ++ [lit "  ❌ " ++ ensure_scheme url ++ lit ": " ++ type_name e]
    else run.1 = Raise e /\ stdout run.2 = stdout w.
Proof.
  cbv zeta. rewrite check_onion_service_run. cbv zeta.
  destruct (network _ _ _) as [resp|e'].
  - split_and!; try done.
  - destruct (is_Exception e') eqn:He; (split_and!; try done);
      intros e [= <-]; by rewrite He.
Qed.

(** X14: a document that cannot be read for another reason than its
    absence (a directory stands at the path, the file may not be read, or
    its bytes are not UTF-8) makes [update_readme] raise the exception of
    the reading, which the handler of [FileNotFoundError] does not catch;
    nothing has then been written. *)
Theorem unreadable_readme_aborts online offline readme_file w e :
  (read_file readme_file w).1 = Raise e ->
  e <> FileNotFoundError ->
  e ∈ [IsADirectoryError; PermissionError; UnicodeDecodeError] /\
  exists w',
    update_readme clock os_error online offline readme_file w = (Raise e, w') /\
    files w' = files w.
Proof.
  rewrite update_readme_run. cbv zeta. unfold read_file.
  destruct (files w !! readme_file) as [[|[text|] [|] [|]]|]; cbn [negb fst];
    intros [= <-] Hne; try done;
    (split; [rewrite !elem_of_cons; auto | by eexists]).
Qed.


End UpdaterAndProber.

Lemma missing_readme_created_witness :
  exists w',
    update_readme example_clock no_os_error [alpha_service] [beta_service] (lit "README.md")
      empty_world = (Ok tt, w') /\
    files w' !! lit "README.md" =
      Some (text_file
              (lit "# Tor Hidden Services Monitor" ++ [LF; LF] ++ [LF]
               ++ status_content (strftime (example_clock (clock_reads empty_world)))
                    [alpha_service] [beta_service])).
Proof.
  destruct (missing_readme_created example_clock no_os_error [alpha_service] [beta_service]
              (lit "README.md") empty_world eq_refl) as [Hcreated _].
  apply Hcreated; reflexivity.
Defined.

Lemma updated_document_has_closed_section_witness :
  exists document readable,
    files (update_readme example_clock no_os_error [alpha_service] [beta_service]
             (lit "README.md") open_world).2 !! lit "README.md"
      = Some (File (Some document) readable true) /\
    (Str.contains start_marker document = true /\
     Str.find end_marker document (Str.find start_marker document 0) <> (-1)%Z) /\
    (Str.contains start_marker (universal_newlines document) = true /\
     Str.find end_marker (universal_newlines document)
       (Str.find start_marker (universal_newlines document) 0) <> (-1)%Z).
Proof.
  apply (updated_document_has_closed_section example_clock no_os_error [alpha_service]
           [beta_service] (lit "README.md") open_world).
  by vm_compute.
Defined.

Lemma unreadable_readme_aborts_witness :
  (exists w',
     update_readme example_clock no_os_error [] [] (lit "README.md") directory_world
       = (Raise IsADirectoryError, w') /\
     files w' = files directory_world) /\
  (exists w',
     update_readme example_clock no_os_error [] [] (lit "README.md") undecodable_world
       = (Raise UnicodeDecodeError, w') /\
     files w' = files undecodable_world).
Proof.
  split.
  - apply (unreadable_readme_aborts example_clock no_os_error [] [] (lit "README.md")
             directory_world IsADirectoryError); [reflexivity | discriminate].
  - apply (unreadable_readme_aborts example_clock no_os_error [] [] (lit "README.md")
             undecodable_world UnicodeDecodeError); [reflexivity | discriminate].
Defined.


(** ** A whole run *)
Section WholeRun.
Variable network : nat -> str -> Z -> result response.
Variable clock : nat -> datetime.
Variable DictReader : str -> result (list dict).
Variable os_error : os_step -> str -> option refusal.

(** What [main] does when [services.csv] is read and holds no row. *)
Lemma main_run_without_rows w csv :
  files w !! lit "services.csv" = Some (text_file csv) ->
  DictReader (universal_newlines csv) = Ok [] ->
  main network clock DictReader os_error w =
    let w0 :=
      World (files w)
            (stdout w ++ [lit "🧅 Starting Tor hidden service check...";
                          lit "📋 Found 0 services to check" ++ [LF];
                          [LF] ++ lit "📝 Updating README..."])
            (requests w) (clock_reads w) in
    match update_readme clock os_error [] [] (lit "README.md") w0 with
    | (Ok _, w') =>
        (Ok tt,
         World (files w') (stdout w' ++ [lit "✅ Done! 0 online, 0 offline"]) (requests w')
               (clock_reads w'))
    | (Raise e, w') => (Raise e, w')
    end.
Proof.
  intros Hcsv Hrows. unfold main.
  unfold bind at 1, print at 1. unfold bind at 1, try_except at 1, bind at 1.
  rewrite read_services_csv_run, (read_file_text _ _ csv) by done. rewrite Hrows.
  unfold bind at 1, print at 1, ret at 1. cbv beta iota zeta.
  cbn [check_services]. unfold bind at 1, ret at 1. cbv beta iota.
  unfold bind at 1, print at 1. unfold bind at 1.
  cbn [files stdout requests clock_reads]. rewrite <- !app_assoc. cbn [app].
  destruct (update_readme _ _ _ _ _ _) as [[[]|e] w']; reflexivity.
Qed.

(** X3: when [services.csv] is read and holds no row, [main] issues no
    request and goes on to the update of [README.md] with two empty lists:
    it returns or raises as that update does, and leaves the files as that
    update leaves them. *)
Theorem main_without_rows w csv :
  files w !! lit "services.csv" = Some (text_file csv) ->
  DictReader (universal_newlines csv) = Ok [] ->
  (main network clock DictReader os_error w).1 =
    (update_readme clock os_error [] [] (lit "README.md") w).1 /\
  files (main network clock DictReader os_error w).2 =
    files (update_readme clock os_error [] [] (lit "README.md") w).2 /\
  requests (main network clock DictReader os_error w).2 = requests w /\
  clock_reads (main network clock DictReader os_error w).2 = S (clock_reads w).
Proof.
  intros Hcsv Hrows. rewrite (main_run_without_rows w csv Hcsv Hrows). cbv zeta.
  rewrite !update_readme_run. cbv zeta. cbn [files stdout requests clock_reads].
  destruct (files w !! lit "README.md") as [[|[text|] [|] [|]]|]; cbn [negb];
    repeat match goal with
           | |- context [os_error ?step ?path] => destruct (os_error step path)
           end;
    by split_and!.
Qed.

End WholeRun.

Lemma main_without_rows_witness :
  (main example_network example_clock no_rows no_os_error csv_world).1 = Ok tt /\
  files (main example_network example_clock no_rows no_os_error csv_world).2
    !! lit "README.md" =
    Some (text_file (fresh_readme ++ [LF]
                     ++ status_content (strftime (example_clock 0)) [] [])) /\
  requests (main example_network example_clock no_rows no_os_error csv_world).2 = [].
Proof.
  destruct (main_without_rows example_network example_clock no_rows no_os_error
              csv_world (lit "name,url") eq_refl eq_refl) as (Hresult & Hfiles & Hrequests & _).
  rewrite Hresult, Hfiles, Hrequests. by vm_compute.
Defined.

(** ** The rendered section *)
Section Rendering.
Import Str StrFacts.

(** X10: the rewriting of the URL gives a URL that starts with [http], and
    rewriting it again changes nothing. *)
Theorem ensure_scheme_idempotent url :
  startswith (lit "http") (ensure_scheme url) = true /\
  ensure_scheme (ensure_scheme url) = ensure_scheme url.
Proof.
  assert (startswith (lit "http") (ensure_scheme url) = true) as H.
  { unfold ensure_scheme. destruct (startswith (lit "http") url) eqn:E; [done|].
    cbn [negb]. change (lit "http://") with (lit "http" ++ lit "://").
    rewrite <- app_assoc. apply startswith_app. }
  split; [done|]. unfold ensure_scheme at 1. by rewrite H.
Qed.

Lemma contains_bind_item (item : dict -> str) (services : list dict) (service : dict) :
  service ∈ services -> contains (item service) (services ≫= item) = true.
Proof.
  intros (l1 & l2 & ->)%list_elem_of_split.
  rewrite bind_app, bind_cons.
  apply contains_app_r, contains_head.
Qed.

(** X12: the rendered section lists every service it is given: each online
    service with its name, its URL and, when it is not empty, its
    description; each offline service with its name and URL on one line. *)
Theorem every_service_is_listed timestamp online offline :
  (forall service, service ∈ online ->
     contains
       (lit "- **" ++ get service (lit "name") (lit "Unknown") ++ lit "**" ++ [LF]
        ++ lit "  - URL: `" ++ get service (lit "url") [] ++ lit "`" ++ [LF]
        ++ (if bool_decide (get service (lit "description") [] <> [])
            then lit "  - " ++ get service (lit "description") [] ++ [LF] else [])
        ++ [LF])
       (status_content timestamp online offline) = true) /\
  (forall service, service ∈ offline ->
     contains
       (lit "- **" ++ get service (lit "name") (lit "Unknown") ++ lit "** - `"
        ++ get service (lit "url") [] ++ lit "`" ++ [LF])
       (status_content timestamp online offline) = true).
Proof.
  rewrite status_content_eq. split; intros service Hin.
  - rewrite <- online_item_eq.
    do 10 apply contains_app_r. apply contains_app_l.
    unfold online_list. rewrite bool_decide_eq_true_2 by (intros ->; by apply elem_of_nil in Hin).
    by apply contains_bind_item.
  - rewrite <- offline_item_eq.
    do 15 apply contains_app_r. apply contains_app_l.
    unfold offline_list. rewrite bool_decide_eq_true_2 by (intros ->; by apply elem_of_nil in Hin).
    by apply contains_bind_item.
Qed.

Lemma contains_prefix (sub s : str) : sub `prefix_of` s -> contains sub s = true.
Proof.
  intros [rest ->]. apply contains_head.
Qed.

(** X13: the section starts with its heading and the line of the
    timestamp, holds the headings of the two lists with the sizes of the
    lists in decimal, and ends with the end marker. *)
Theorem section_headings timestamp online offline :
  let section := status_content timestamp online offline in
  startswith (start_marker ++ [LF; LF] ++ lit "*Last checked: " ++ timestamp ++ lit "*"
              ++ [LF; LF]) section = true /\
  contains (lit "### ✅ Online Services (" ++ decimal (length online) ++ lit ")" ++ [LF])
    section = true /\
  contains (lit "### ❌ Offline Services (" ++ decimal (length offline) ++ lit ")" ++ [LF])
    section = true /\
  exists body, section = body ++ end_marker.
Proof.
  cbv zeta. split_and!; [| | |apply status_content_ends]; rewrite status_content_eq.
  - apply startswith_prefix. do 5 apply prefix_app. by apply prefix_app_r.
  - do 6 apply contains_app_r. apply contains_prefix.
    do 3 apply prefix_app. eexists. change [LF; LF] with ([LF] ++ [LF]).
    by rewrite <- app_assoc.
  - do 11 apply contains_app_r. apply contains_prefix.
    do 3 apply prefix_app. eexists. change [LF; LF] with ([LF] ++ [LF]).
    by rewrite <- app_assoc.
Qed.

End Rendering.
